(** * Catalog backend: product seeding, search with facets, lookup by id, orders

    A shallow embedding of the request handlers of [main.py] and of the record
    types of [schemas.py].

    Conventions of the model:
    - Python [int] is [Z]; lengths and counters that cannot be negative are [nat].
    - Python [float] is modelled by [Q]: the handlers only compare prices and
      ratings, and finite floats are ordered as the rationals they denote
      (NaN and the infinities are outside the model).
    - Python [str] is [string], holding the UTF-8 encoding of the text; its
      characters (code points) are the groups of bytes that [characters] cuts
      it into.
    - The handlers read the process-wide handle [db]; the model threads it as
      the state of a small state-and-exception monad.
    - The document store and its query language are external to the repository.
      Their behaviour is modelled here for the operators the handlers use. *)

From Stdlib Require Import List String Ascii Bool Arith ZArith QArith Lia.
From Stdlib Require Import Permutation Sorted.
From Stdlib.Strings Require Import Byte.
Import ListNotations.

Local Open Scope string_scope.
Local Open Scope Z_scope.
Local Open Scope list_scope.

Set Implicit Arguments.

(* ------------------------------------------------------------------------- *)
(** ** Strings *)

Definition chars (s : string) : list ascii := list_ascii_of_string s.

(** Python truthiness of a [str] and of a [list]. *)
Definition truthy_str (s : string) : bool :=
  match s with EmptyString => false | String _ _ => true end.

Definition truthy_list {A} (l : list A) : bool :=
  match l with [] => false | _ :: _ => true end.

(** One character (code point) of a [str]: the bytes of its UTF-8 encoding,
    a leading byte followed by its continuation bytes. *)
Definition char_t := list ascii.

Definition is_continuation (b : ascii) : bool :=
  let n := nat_of_ascii b in ((128 <=? n) && (n <=? 191))%nat.

Fixpoint group_chars (bs : list ascii) : list char_t :=
  match bs with
  | [] => []
  | b :: rest =>
      let cs := group_chars rest in
      match rest with
      | r :: _ =>
          if is_continuation r
          then match cs with
               | c :: cs' => (b :: c) :: cs'
               | [] => [[b]]
               end
          else [b] :: cs
      | [] => [[b]]
      end
  end.

(** The characters of a [str], in order. *)
Definition characters (s : string) : list char_t := group_chars (chars s).

Definition char_eqb (a b : char_t) : bool :=
  if list_eq_dec Ascii.ascii_dec a b then true else false.

Definition is_upper (c : ascii) : bool :=
  let n := nat_of_ascii c in ((65 <=? n) && (n <=? 90))%nat.

(** Case folding of the ASCII letters, every other character kept: the
    folding of the sample engine below, enough for the sample data. *)
Definition ascii_casefold (c : char_t) : char_t :=
  match c with
  | [b] => if is_upper b then [ascii_of_nat (nat_of_ascii b + 32)] else [b]
  | _ => c
  end.

Definition mem_str (s : string) (l : list string) : bool :=
  existsb (String.eqb s) l.

(* ------------------------------------------------------------------------- *)
(** ** schemas.py *)

Module ProductVariant.
Record t := {
    size : string;
    color : string;
    sku : option string;
    stock : Z
  }.
End ProductVariant.

Module ProductImage.
Record t := {
    url : string;
    alt : option string
  }.
End ProductImage.

Module Product.
Record t := {
    title : string;
    description : option string;
    price : Q;
    compare_at_price : option Q;
    category : string;
    subcategory : option string;
    brand : option string;
    rating : option Q;
    rating_count : option Z;
    tags : option (list string);
    variants : list ProductVariant.t;
    images : list ProductImage.t;
    is_active : bool
  }.
End Product.

Module CartItem.
Record t := {
    product_id : string;
    title : string;
    price : Q;
    quantity : Z;
    variant : option ProductVariant.t;
    image : option string
  }.
End CartItem.

Module Order.
Record t := {
    items : list CartItem.t;
    subtotal : Q;
    discount : Q;
    shipping : Q;
    total : Q;
    currency : string;
    customer_name : string;
    customer_email : string;
    customer_phone : option string;
    shipping_address : string;
    notes : option string;
    created_at : option Z
  }.
End Order.

(** A validated request body handed to the document gateway. *)
Inductive Model :=
| product_model (p : Product.t)
| order_model (o : Order.t).

(* ------------------------------------------------------------------------- *)
(** ** bson.ObjectId

    An identifier is a sequence of bytes (twelve for the generated ones).
    [ObjectId s] takes a string of 24 characters and reads it with
    [bytes.fromhex], which reads two hexadecimal digits per byte and skips
    ASCII whitespace between the bytes; it raises on any other string.  [str]
    prints the bytes as lower-case hexadecimal. *)

Definition ObjectId_t := list byte.

Definition hex_value (c : ascii) : option N :=
  let n := N_of_ascii c in
  if ((48 <=? n) && (n <=? 57))%N then Some (n - 48)%N
  else if ((97 <=? n) && (n <=? 102))%N then Some (n - 87)%N
  else if ((65 <=? n) && (n <=? 70))%N then Some (n - 55)%N
  else None.

Definition hex_digit (n : N) : ascii :=
  if (n <? 10)%N then ascii_of_N (48 + n) else ascii_of_N (87 + n).

(** ASCII whitespace: space, and the characters 9 to 13. *)
Definition is_space (c : ascii) : bool :=
  let n := nat_of_ascii c in ((n =? 32) || ((9 <=? n) && (n <=? 13)))%nat.

Fixpoint fromhex (cs : list ascii) : option (list byte) :=
  match cs with
  | [] => Some []
  | c :: rest =>
      if is_space c then fromhex rest
      else
        match rest with
        | lo :: rest' =>
            match hex_value c, hex_value lo, fromhex rest' with
            | Some h, Some l, Some bs =>
                match Byte.of_N (16 * h + l) with
                | Some b => Some (b :: bs)
                | None => None
                end
            | _, _, _ => None
            end
        | [] => None
        end
  end.

(** [len(s)]: the number of characters. *)
Definition len (s : string) : nat := List.length (characters s).

Definition ObjectId (oid : string) : option ObjectId_t :=
  if (len oid =? 24)%nat then fromhex (chars oid) else None.

Fixpoint hexlify (bs : list byte) : string :=
  match bs with
  | [] => EmptyString
  | b :: rest =>
      let n := Byte.to_N b in
      String (hex_digit (n / 16)) (String (hex_digit (n mod 16)) (hexlify rest))
  end.

Definition str (oid : ObjectId_t) : string := hexlify oid.

Definition oid_eqb (a b : ObjectId_t) : bool :=
  if list_eq_dec Byte.byte_eq_dec a b then true else false.

(* ------------------------------------------------------------------------- *)
(** ** Stored documents and the database *)

Record Document := {
  _id : ObjectId_t;
  body : Model
}.

(** A document as the handlers return it: [_id] replaced by its string. *)
Record Item := {
  item_id : string;
  item_body : Model
}.

Definition serialise (d : Document) : Item :=
  {| item_id := str (_id d); item_body := body d |}.

Record Database := {
  collections : string -> list Document;   (* db[name], in natural order *)
  oid_counter : N                          (* source of generated identifiers *)
}.

Definition getitem (d : Database) (name : string) : list Document :=
  collections d name.

(* ------------------------------------------------------------------------- *)
(** ** Exceptions and the handler monad *)

Inductive exn :=
| HTTPException (status_code : Z) (detail : string)
| OperationFailure (msg : string)      (* the server rejected a query *)
| PyMongoError (msg : string).         (* a write did not go through *)

Inductive result (A : Type) :=
| Ok (a : A)
| Raise (e : exn).
Arguments Ok {A} a.
Arguments Raise {A} e.

(** The state is the process-wide handle [db]: [None] when the environment
    gave no connection string. *)
Definition World := option Database.

Definition M (A : Type) := World -> result A * World.

Definition ret {A} (a : A) : M A := fun w => (Ok a, w).

Definition bind {A B} (m : M A) (k : A -> M B) : M B :=
  fun w => match m w with
           | (Ok a, w') => k a w'
           | (Raise e, w') => (Raise e, w')
           end.

Definition raise {A} (e : exn) : M A := fun w => (Raise e, w).

Definition get_db : M World := fun w => (Ok w, w).

Definition lift {A} (r : result A) : M A := fun w => (r, w).

Notation "x <- m ;; k" := (bind m (fun x => k))
  (at level 61, m at next level, right associativity).

(* ------------------------------------------------------------------------- *)
(** ** The query language of the document store

    A query is the Python [dict] the handler builds: field names (or ["$or"])
    mapped to conditions, kept in insertion order. *)

Inductive scalar :=
| SNull
| SBool (b : bool)
| SStr (s : string)
| SNum (q : Q).

Inductive condition :=
| Equals (v : scalar)                      (* {field: v} *)
| In_ (vs : list string)                   (* {"$in": vs} *)
| Regex (pattern options : string)         (* {"$regex": p, "$options": o} *)
| Ops (price_filter : list (string * Q)).  (* {"$gte": a, "$lte": b} *)

Inductive qvalue :=
| Cond (c : condition)
| OrOf (alternatives : list (list (string * condition))).

Definition query_t := list (string * qvalue).

(** *** Regular expressions

    The server's engine reads patterns and subjects character by character.
    It is modelled for the patterns made of ordinary characters and of the
    dot.  Every other pattern (one with another metacharacter or with a NUL)
    is left to [other_patterns], which stands for the engine on the rest of
    its syntax: [None] when the pattern is rejected, a search predicate
    otherwise.  [casefold] is the engine's case table: two characters are
    equal up to case when it sends them to the same character. *)

Record Engine := {
  other_patterns : string -> string -> option (string -> bool);
  casefold : char_t -> char_t
}.

Definition metachars : list ascii := chars "\^$.|?*+()[]{}".

Definition is_meta (c : ascii) : bool := existsb (Ascii.eqb c) metachars.

Definition nul : ascii := ascii_of_nat 0.

(** A character that is not taken literally by the modelled patterns. *)
Definition is_special (c : char_t) : bool :=
  match c with
  | [b] => is_meta b || Ascii.eqb b nul
  | _ => false
  end.

Inductive atom :=
| AnyChar
| Lit (c : char_t).

Fixpoint parse (cs : list char_t) : option (list atom) :=
  match cs with
  | [] => Some []
  | c :: rest =>
      if char_eqb c ["."%char] then option_map (cons AnyChar) (parse rest)
      else if is_special c then None
      else option_map (cons (Lit c)) (parse rest)
  end.

Definition newline : ascii := ascii_of_nat 10.

Definition atom_matches (fold : char_t -> char_t) (ci : bool) (a : atom) (x : char_t)
  : bool :=
  match a with
  | AnyChar => negb (char_eqb x [newline])
  | Lit c => if ci then char_eqb (fold c) (fold x) else char_eqb c x
  end.

Fixpoint match_here (fold : char_t -> char_t) (ci : bool) (atoms : list atom)
         (subject : list char_t) : bool :=
  match atoms, subject with
  | [], _ => true
  | a :: atoms', x :: subject' =>
      atom_matches fold ci a x && match_here fold ci atoms' subject'
  | _ :: _, [] => false
  end.

(** Unanchored search: the pattern matches at some position of the subject. *)
Fixpoint search_at_some_position (fold : char_t -> char_t) (ci : bool)
         (atoms : list atom) (subject : list char_t) : bool :=
  match_here fold ci atoms subject ||
  match subject with
  | [] => false
  | _ :: subject' => search_at_some_position fold ci atoms subject'
  end.

Definition caseless (options : string) : bool :=
  existsb (Ascii.eqb "i"%char) (chars options).

Section Store.

Variable engine : Engine.

Definition regex_compile (pattern options : string) : option (string -> bool) :=
    match parse (characters pattern) with
    | Some atoms =>
        Some (fun subject =>
                search_at_some_position (casefold engine) (caseless options) atoms
                                        (characters subject))
    | None => other_patterns engine pattern options
    end.

  (** *** Documents seen by a query

      [values_at d path] lists the values a condition on [path] is tested
      against: the value of a plain field, the elements of an array field, the
      [path] component of every element of an array of sub-documents.  A field
      that is absent or null gives [SNull].  Only the paths of the product
      schema that the handlers name are resolved. *)

Definition opt_scalar {A} (f : A -> scalar) (o : option A) : scalar :=
    match o with Some a => f a | None => SNull end.

Definition values_at (d : Document) (path : string) : list scalar :=
    match body d with
    | product_model p =>
        if String.eqb path "is_active" then [SBool (Product.is_active p)]
        else if String.eqb path "category" then [SStr (Product.category p)]
        else if String.eqb path "subcategory" then [opt_scalar SStr (Product.subcategory p)]
        else if String.eqb path "title" then [SStr (Product.title p)]
        else if String.eqb path "description" then [opt_scalar SStr (Product.description p)]
        else if String.eqb path "price" then [SNum (Product.price p)]
        else if String.eqb path "rating" then [opt_scalar SNum (Product.rating p)]
        else if String.eqb path "tags" then
          match Product.tags p with
          | Some ts => map SStr ts
          | None => [SNull]
          end
        else if String.eqb path "variants.color" then
          map (fun v => SStr (ProductVariant.color v)) (Product.variants p)
        else if String.eqb path "variants.size" then
          map (fun v => SStr (ProductVariant.size v)) (Product.variants p)
        else [SNull]
    | order_model _ => [SNull]
    end.

Definition scalar_eqb (a b : scalar) : bool :=
    match a, b with
    | SNull, SNull => true
    | SBool x, SBool y => Bool.eqb x y
    | SStr x, SStr y => String.eqb x y
    | SNum x, SNum y => Qeq_bool x y
    | _, _ => false
    end.

Definition op_holds (v : Q) (op : string * Q) : bool :=
    let (name, bound) := op in
    if String.eqb name "$gte" then Qle_bool bound v
    else if String.eqb name "$lte" then Qle_bool v bound
    else false.

Definition holds (c : condition) (x : scalar) : bool :=
    match c with
    | Equals v => scalar_eqb v x
    | In_ vs => match x with SStr s => mem_str s vs | _ => false end
    | Regex pattern options =>
        match x, regex_compile pattern options with
        | SStr s, Some matcher => matcher s
        | _, _ => false
        end
    | Ops price_filter =>
        match x with SNum v => forallb (op_holds v) price_filter | _ => false end
    end.

Definition field_matches (d : Document) (fc : string * condition) : bool :=
    existsb (holds (snd fc)) (values_at d (fst fc)).

Definition entry_matches (d : Document) (e : string * qvalue) : bool :=
    match snd e with
    | Cond c => field_matches d (fst e, c)
    | OrOf alternatives => existsb (forallb (field_matches d)) alternatives
    end.

  (** The entries of a query are combined by AND. *)
Definition matches (query : query_t) (d : Document) : bool :=
    forallb (entry_matches d) query.

Definition condition_ok (c : condition) : bool :=
    match c with
    | Regex pattern options =>
        match regex_compile pattern options with Some _ => true | None => false end
    | _ => true
    end.

Definition entry_ok (e : string * qvalue) : bool :=
    match snd e with
    | Cond c => condition_ok c
    | OrOf alternatives => forallb (forallb (fun fc => condition_ok (snd fc))) alternatives
    end.

  (** The server accepts a query when all its patterns compile. *)
Definition query_ok (query : query_t) : bool := forallb entry_ok query.

Definition run_query (collection : list Document) (query : query_t)
    : result (list Document) :=
    if query_ok query then Ok (filter (matches query) collection)
    else Raise (OperationFailure "Regular expression is invalid").

  (** *** Sorting *)

Section Isort.
Variable A : Type.
Variable leb : A -> A -> bool.

Fixpoint insert_sorted (x : A) (l : list A) : list A :=
      match l with
      | [] => [x]
      | y :: l' => if leb x y then x :: y :: l' else y :: insert_sorted x l'
      end.

Fixpoint isort (l : list A) : list A :=
      match l with
      | [] => []
      | x :: l' => insert_sorted x (isort l')
      end.
End Isort.

  (** The key a product is sorted on: a number, or null ([None]), which the
      store orders before every number. *)
Definition key_of (field : string) (m : Model) : option Q :=
    match m with
    | product_model p =>
        if String.eqb field "price" then Some (Product.price p)
        else if String.eqb field "rating" then Product.rating p
        else None
    | order_model _ => None
    end.

Definition sort_key (field : string) (d : Document) : option Q :=
    key_of field (body d).

Definition key_leb (a b : option Q) : bool :=
    match a, b with
    | None, _ => true
    | Some _, None => false
    | Some x, Some y => Qle_bool x y
    end.

Definition doc_leb (spec : string * Z) (a b : Document) : bool :=
    let (field, direction) := spec in
    if direction =? 1 then key_leb (sort_key field a) (sort_key field b)
    else key_leb (sort_key field b) (sort_key field a).

  (** *** Cursors: [find], [sort], [skip], [limit], and their evaluation *)

Record Cursor := {
    cur_collection : list Document;
    cur_query : query_t;
    cur_sort : option (string * Z);
    cur_skip : Z;
    cur_limit : Z
  }.

Definition find (collection : list Document) (query : query_t) : Cursor :=
    {| cur_collection := collection; cur_query := query;
       cur_sort := None; cur_skip := 0; cur_limit := 0 |}.

Definition sort (spec : string * Z) (c : Cursor) : Cursor :=
    {| cur_collection := cur_collection c; cur_query := cur_query c;
       cur_sort := Some spec; cur_skip := cur_skip c; cur_limit := cur_limit c |}.

Definition skip (n : Z) (c : Cursor) : Cursor :=
    {| cur_collection := cur_collection c; cur_query := cur_query c;
       cur_sort := cur_sort c; cur_skip := n; cur_limit := cur_limit c |}.

Definition limit (n : Z) (c : Cursor) : Cursor :=
    {| cur_collection := cur_collection c; cur_query := cur_query c;
       cur_sort := cur_sort c; cur_skip := cur_skip c; cur_limit := n |}.

Definition apply_sort (spec : option (string * Z)) (docs : list Document) : list Document :=
    match spec with
    | Some s => isort (doc_leb s) docs
    | None => docs
    end.

  (** A limit of 0 means no limit; a negative limit [-n] gives at most [n]
      documents. *)
Definition apply_limit (n : Z) (docs : list Document) : list Document :=
    if n =? 0 then docs else firstn (Z.to_nat (Z.abs n)) docs.

  (** [list(cursor)] *)
Definition to_list (c : Cursor) : result (list Document) :=
    match run_query (cur_collection c) (cur_query c) with
    | Ok docs =>
        Ok (apply_limit (cur_limit c)
              (skipn (Z.to_nat (cur_skip c)) (apply_sort (cur_sort c) docs)))
    | Raise e => Raise e
    end.

Definition count_documents (collection : list Document) (query : query_t)
    : result nat :=
    match run_query collection query with
    | Ok docs => Ok (List.length docs)
    | Raise e => Raise e
    end.

  (** *** The facet pipeline: $match, $unwind, $group with a count, $sort *)

Definition variants_of (d : Document) : list ProductVariant.t :=
    match body d with
    | product_model p => Product.variants p
    | order_model _ => []
    end.

Definition unwind (docs : list Document) : list ProductVariant.t :=
    flat_map variants_of docs.

Fixpoint bump (key : string) (groups : list (string * nat)) : list (string * nat) :=
    match groups with
    | [] => [(key, 1%nat)]
    | (k, n) :: rest =>
        if String.eqb key k then (k, S n) :: rest else (k, n) :: bump key rest
    end.

Definition group_count (keys : list string) : list (string * nat) :=
    fold_left (fun groups key => bump key groups) keys [].

Definition count_desc (a b : string * nat) : bool := (snd b <=? snd a)%nat.

Definition aggregate (collection : list Document) (query : query_t)
             (group_key : ProductVariant.t -> string)
    : result (list (string * nat)) :=
    match run_query collection query with
    | Ok docs => Ok (isort count_desc (group_count (map group_key (unwind docs))))
    | Raise e => Raise e
    end.

End Store.

(* ------------------------------------------------------------------------- *)
(** ** main.py: request and response shapes *)

Module FilterRequest.
Record t := {
    category : option string;
    subcategory : option string;
    price_min : option Q;
    price_max : option Q;
    colors : option (list string);
    sizes : option (list string);
    tags : option (list string);
    sort : option string;
    search : option string;
    page : Z;
    limit : Z
  }.
End FilterRequest.

Record Facet := {
  value : string;
  count : nat
}.

Record Facets := {
  colors : list Facet;
  sizes : list Facet
}.

Module SearchResponse.
Record t := {
    total : nat;
    page : Z;
    limit : Z;
    items : list Item;
    facets : Facets
  }.
End SearchResponse.

Record SeedResponse := {
  inserted : nat;
  ids : list string
}.

Record OrderResponse := {
  order_id : string
}.

(* ------------------------------------------------------------------------- *)
(** ** The document gateway *)

Definition byte_of_N (n : N) : byte :=
  match Byte.of_N (n mod 256) with
  | Some b => b
  | None => Byte.x00
  end.

(** The twelve bytes of the counter, most significant first. *)
Definition oid_of_counter (n : N) : ObjectId_t :=
  map (fun i => byte_of_N (n / 256 ^ N.of_nat (11 - i))) (seq 0 12).

Definition insert_one (name : string) (doc : Document) (d : Database) : Database :=
  {| collections := fun n => if String.eqb n name then collections d n ++ [doc]
                             else collections d n;
     oid_counter := N.succ (oid_counter d) |}.

Section Handlers.

Variable engine : Engine.

  (** [insert_raises d name data]: the store fails to insert [data] into the
      collection [name] when its state is [d]. *)
Variable insert_raises : Database -> string -> Model -> bool.

  (** Modelled from the spec: [database.py], which defines the handle [db] and
      [create_document], is not among the sources.  [create_document] accepts
      one validated record, persists it in the named collection and returns
      its newly generated identifier as a string; a failing insert raises. *)
Definition create_document (collection_name : string) (data : Model) : M string :=
    fun w =>
      match w with
      | None => (Raise (PyMongoError "Database not available"), w)
      | Some d =>
          if insert_raises d collection_name data
          then (Raise (PyMongoError "insert failed"), w)
          else
            let oid := oid_of_counter (oid_counter d) in
            (Ok (str oid),
             Some (insert_one collection_name {| _id := oid; body := data |} d))
      end.

  (** *** POST /api/products/seed *)

Fixpoint seed_loop (products : list Product.t) (inserted_ids : list string)
    : M (list string) :=
    match products with
    | [] => ret inserted_ids
    | prod :: rest =>
        inserted_id <- create_document "product" (product_model prod) ;;
        seed_loop rest (inserted_ids ++ [inserted_id])
    end.

Definition seed_products (products : list Product.t) : M SeedResponse :=
    db <- get_db ;;
    match db with
    | None => raise (HTTPException 500 "Database not configured")
    | Some _ =>
        inserted_ids <- seed_loop products [] ;;
        ret {| inserted := List.length inserted_ids; ids := inserted_ids |}
    end.

  (** *** POST /api/products/search *)

Definition set_if {A} (truthy : A -> bool) (o : option A)
             (entry : A -> string * qvalue) (query : query_t) : query_t :=
    match o with
    | Some a => if truthy a then query ++ [entry a] else query
    | None => query
    end.

Definition build_price_filter (filters : FilterRequest.t) : list (string * Q) :=
    let price_filter := [] in
    let price_filter :=
      match FilterRequest.price_min filters with
      | Some lo => price_filter ++ [("$gte", lo)]
      | None => price_filter
      end in
    match FilterRequest.price_max filters with
    | Some hi => price_filter ++ [("$lte", hi)]
    | None => price_filter
    end.

Definition build_query (filters : FilterRequest.t) : query_t :=
    let query := [("is_active", Cond (Equals (SBool true)))] in
    let query := set_if truthy_str (FilterRequest.category filters)
                   (fun c => ("category", Cond (Equals (SStr c)))) query in
    let query := set_if truthy_str (FilterRequest.subcategory filters)
                   (fun c => ("subcategory", Cond (Equals (SStr c)))) query in
    let query := set_if truthy_list (FilterRequest.colors filters)
                   (fun cs => ("variants.color", Cond (In_ cs))) query in
    let query := set_if truthy_list (FilterRequest.sizes filters)
                   (fun ss => ("variants.size", Cond (In_ ss))) query in
    let query := set_if truthy_list (FilterRequest.tags filters)
                   (fun ts => ("tags", Cond (In_ ts))) query in
    let query := set_if truthy_str (FilterRequest.search filters)
                   (fun s => ("$or", OrOf [[("title", Regex s "i")];
                                           [("description", Regex s "i")]])) query in
    let price_filter := build_price_filter filters in
    if truthy_list price_filter
    then query ++ [("price", Cond (Ops price_filter))]
    else query.

Definition build_sort_spec (filters : FilterRequest.t) : option (string * Z) :=
    match FilterRequest.sort filters with
    | Some tag =>
        if String.eqb tag "price_asc" then Some ("price", 1)
        else if String.eqb tag "price_desc" then Some ("price", -1)
        else if String.eqb tag "rating" then Some ("rating", -1)
        else None
    | None => None
    end.

Definition facet_list (counts : list (string * nat)) : list Facet :=
    map (fun c => {| value := fst c; count := snd c |})
        (filter (fun c => truthy_str (fst c)) counts).

Definition search_products (filters : FilterRequest.t) : M SearchResponse.t :=
    db <- get_db ;;
    match db with
    | None => raise (HTTPException 500 "Database not configured")
    | Some db =>
        let query := build_query filters in
        let sort_spec := build_sort_spec filters in
        let collection := getitem db "product" in
        let skip_ := Z.max 0 ((FilterRequest.page filters - 1) * FilterRequest.limit filters) in
        total <- lift (count_documents engine collection query) ;;
        let cursor := find collection query in
        let cursor := match sort_spec with
                      | Some spec => sort spec cursor
                      | None => cursor
                      end in
        items <- lift (to_list engine (limit (FilterRequest.limit filters) (skip skip_ cursor))) ;;
        let items := map serialise items in
        color_counts <- lift (aggregate engine collection query ProductVariant.color) ;;
        size_counts <- lift (aggregate engine collection query ProductVariant.size) ;;
        ret {| SearchResponse.total := total;
               SearchResponse.page := FilterRequest.page filters;
               SearchResponse.limit := FilterRequest.limit filters;
               SearchResponse.items := items;
               SearchResponse.facets :=
                 {| colors := facet_list color_counts;
                    sizes := facet_list size_counts |} |}
    end.

  (** *** GET /api/products/{product_id} *)

Definition find_one (collection : list Document) (oid : ObjectId_t) : option Document :=
    List.find (fun d => oid_eqb (_id d) oid) collection.

Definition get_product (product_id : string) : M Item :=
    db <- get_db ;;
    match db with
    | None => raise (HTTPException 500 "Database not configured")
    | Some db =>
        match ObjectId product_id with
        | None => raise (HTTPException 400 "Invalid product id")
        | Some obj_id =>
            match find_one (getitem db "product") obj_id with
            | None => raise (HTTPException 404 "Not found")
            | Some doc => ret (serialise doc)
            end
        end
    end.

  (** *** POST /api/orders *)

Definition create_order (order : Order.t) : M OrderResponse :=
    db <- get_db ;;
    match db with
    | None => raise (HTTPException 500 "Database not configured")
    | Some _ =>
        order_id <- create_document "order" (order_model order) ;;
        ret {| order_id := order_id |}
    end.

End Handlers.

(* ------------------------------------------------------------------------- *)
(** ** Vocabulary of the statements *)

Section Vocabulary.

Variable engine : Engine.

  (** What an optional filter field contributes to the conjunction. *)
Definition clause {A} (truthy : A -> bool) (o : option A)
             (entry : A -> string * qvalue) (d : Document) : bool :=
    match o with
    | Some a => if truthy a then entry_matches engine d (entry a) else true
    | None => true
    end.

Definition price_clause (filters : FilterRequest.t) (d : Document) : bool :=
    if truthy_list (build_price_filter filters)
    then entry_matches engine d ("price", Cond (Ops (build_price_filter filters)))
    else true.

Definition active_clause (d : Document) : bool :=
    entry_matches engine d ("is_active", Cond (Equals (SBool true))).

  (** The products of the collection that satisfy the query of a request, in
      natural order. *)
Definition matching (db : Database) (filters : FilterRequest.t) : list Document :=
    filter (matches engine (build_query filters)) (getitem db "product").

  (** The server accepts the query of the request. *)
Definition accepted (filters : FilterRequest.t) : Prop :=
    query_ok engine (build_query filters) = true.

End Vocabulary.

Definition skip_of (filters : FilterRequest.t) : Z :=
  Z.max 0 ((FilterRequest.page filters - 1) * FilterRequest.limit filters).

Definition page_of (filters : FilterRequest.t) (docs : list Document) : list Document :=
  apply_limit (FilterRequest.limit filters) (skipn (Z.to_nat (skip_of filters)) docs).

Definition is_active_product (m : Model) : Prop :=
  exists p, m = product_model p /\ Product.is_active p = true.

(** The response of a search whose query the server accepts. *)
Definition search_response (engine : Engine)
           (db : Database) (filters : FilterRequest.t) : SearchResponse.t :=
  let found := matching engine db filters in
  {| SearchResponse.total := List.length found;
     SearchResponse.page := FilterRequest.page filters;
     SearchResponse.limit := FilterRequest.limit filters;
     SearchResponse.items :=
       map serialise (page_of filters (apply_sort (build_sort_spec filters) found));
     SearchResponse.facets :=
       {| colors := facet_list
                      (isort count_desc
                         (group_count (map ProductVariant.color (unwind found))));
          sizes := facet_list
                     (isort count_desc
                        (group_count (map ProductVariant.size (unwind found)))) |} |}.

(** What a successful [create_document] does to the database. *)
Definition store (name : string) (data : Model) (d : Database) : Database :=
  insert_one name {| _id := oid_of_counter (oid_counter d); body := data |} d.

Definition store_product (d : Database) (prod : Product.t) : Database :=
  store "product" (product_model prod) d.

(** ** Sample data *)

Definition empty_db : Database :=
  {| collections := fun _ => []; oid_counter := 0 |}.

Definition variant (size color : string) : ProductVariant.t :=
  {| ProductVariant.size := size; ProductVariant.color := color;
     ProductVariant.sku := None; ProductVariant.stock := 0 |}.

Definition sample_product (title : string) (price : Q) (category : string)
           (variants : list ProductVariant.t) (is_active : bool) : Product.t :=
  {| Product.title := title;
     Product.description := None;
     Product.price := price;
     Product.compare_at_price := None;
     Product.category := category;
     Product.subcategory := None;
     Product.brand := Some "Enamor";
     Product.rating := Some (4 # 1);
     Product.rating_count := Some 0;
     Product.tags := Some [];
     Product.variants := variants;
     Product.images := [];
     Product.is_active := is_active |}.

Definition lace_bra : Product.t :=
  sample_product "Lace Bra" (20 # 1) "Bras"
    [variant "34B" "Black"; variant "36B" "Black"; variant "34B" "Red"] true.

Definition cotton_brief : Product.t :=
  sample_product "Cotton Brief" (10 # 1) "Briefs" [variant "M" "White"] true.

Definition retired_slip : Product.t :=
  sample_product "Retired Slip" (15 # 1) "Slips" [variant "M" "Black"] false.

Definition sample_db : Database :=
  fold_left store_product [lace_bra; cotton_brief; retired_slip] empty_db.

Definition no_filter : FilterRequest.t :=
  {| FilterRequest.category := None;
     FilterRequest.subcategory := None;
     FilterRequest.price_min := None;
     FilterRequest.price_max := None;
     FilterRequest.colors := None;
     FilterRequest.sizes := None;
     FilterRequest.tags := None;
     FilterRequest.sort := None;
     FilterRequest.search := None;
     FilterRequest.page := 1;
     FilterRequest.limit := 24 |}.

(** An engine that rejects every pattern outside the modelled ones and folds
    the case of the ASCII letters. *)
Definition no_pcre : Engine :=
  {| other_patterns := fun _ _ => None; casefold := ascii_casefold |}.

(** The same engine with the case of one more letter folded: E acute, whose
    upper case is the bytes 195 137 and whose lower case is 195 169. *)
Definition e_acute_upper : char_t := [ascii_of_nat 195; ascii_of_nat 137].
Definition e_acute_lower : char_t := [ascii_of_nat 195; ascii_of_nat 169].

Definition latin_casefold (c : char_t) : char_t :=
  if char_eqb c e_acute_upper then e_acute_lower else ascii_casefold c.

Definition latin_pcre : Engine :=
  {| other_patterns := fun _ _ => None; casefold := latin_casefold |}.

(** ** Membership clauses *)

Definition has_variant_with (key : ProductVariant.t -> string) (vs : list string)
           (m : Model) : Prop :=
  exists p v, m = product_model p /\ In v (Product.variants p) /\ In (key v) vs.

Definition has_tag_in (vs : list string) (m : Model) : Prop :=
  exists p ts t, m = product_model p /\ Product.tags p = Some ts /\ In t ts /\ In t vs.

(** ** Falsy filter fields *)

Definition keep_truthy {A} (truthy : A -> bool) (o : option A) : option A :=
  match o with
  | Some a => if truthy a then Some a else None
  | None => None
  end.

(** The request with every falsy category, subcategory, search, colors, sizes
    and tags field made absent. *)
Definition drop_falsy (f : FilterRequest.t) : FilterRequest.t :=
  {| FilterRequest.category := keep_truthy truthy_str (FilterRequest.category f);
     FilterRequest.subcategory := keep_truthy truthy_str (FilterRequest.subcategory f);
     FilterRequest.price_min := FilterRequest.price_min f;
     FilterRequest.price_max := FilterRequest.price_max f;
     FilterRequest.colors := keep_truthy truthy_list (FilterRequest.colors f);
     FilterRequest.sizes := keep_truthy truthy_list (FilterRequest.sizes f);
     FilterRequest.tags := keep_truthy truthy_list (FilterRequest.tags f);
     FilterRequest.sort := FilterRequest.sort f;
     FilterRequest.search := keep_truthy truthy_str (FilterRequest.search f);
     FilterRequest.page := FilterRequest.page f;
     FilterRequest.limit := FilterRequest.limit f |}.

Definition with_colors (cs : list string) (f : FilterRequest.t) : FilterRequest.t :=
  {| FilterRequest.category := FilterRequest.category f;
     FilterRequest.subcategory := FilterRequest.subcategory f;
     FilterRequest.price_min := FilterRequest.price_min f;
     FilterRequest.price_max := FilterRequest.price_max f;
     FilterRequest.colors := Some cs;
     FilterRequest.sizes := FilterRequest.sizes f;
     FilterRequest.tags := FilterRequest.tags f;
     FilterRequest.sort := FilterRequest.sort f;
     FilterRequest.search := FilterRequest.search f;
     FilterRequest.page := FilterRequest.page f;
     FilterRequest.limit := FilterRequest.limit f |}.

Definition with_price_min (lo : Q) (f : FilterRequest.t) : FilterRequest.t :=
  {| FilterRequest.category := FilterRequest.category f;
     FilterRequest.subcategory := FilterRequest.subcategory f;
     FilterRequest.price_min := Some lo;
     FilterRequest.price_max := FilterRequest.price_max f;
     FilterRequest.colors := FilterRequest.colors f;
     FilterRequest.sizes := FilterRequest.sizes f;
     FilterRequest.tags := FilterRequest.tags f;
     FilterRequest.sort := FilterRequest.sort f;
     FilterRequest.search := FilterRequest.search f;
     FilterRequest.page := FilterRequest.page f;
     FilterRequest.limit := FilterRequest.limit f |}.

(** ** Text search *)

(** The characters of [s] occur, in a row, among those of [t] when letter case
    is ignored: [fold] sends the characters that differ only in case to the
    same character. *)
Definition ci_substring (fold : char_t -> char_t) (s t : string) : Prop :=
  exists pre post,
    map fold (characters t) = pre ++ map fold (characters s) ++ post.

(** A string without regular-expression metacharacters and without NUL. *)
Definition plain (s : string) : Prop :=
  forallb (fun c => negb (is_special c)) (characters s) = true.

Definition search_clause (s : string) : string * qvalue :=
  ("$or", OrOf [[("title", Regex s "i")]; [("description", Regex s "i")]]).

(** The text clause as the specification words it: [s] occurs, case ignored,
    in the title or in the description. *)
Definition text_occurs (fold : char_t -> char_t) (s : string) (m : Model) : Prop :=
  exists p, m = product_model p
            /\ (ci_substring fold s (Product.title p)
                \/ exists text, Product.description p = Some text
                                /\ ci_substring fold s text).

Definition with_search (s : string) (f : FilterRequest.t) : FilterRequest.t :=
  {| FilterRequest.category := FilterRequest.category f;
     FilterRequest.subcategory := FilterRequest.subcategory f;
     FilterRequest.price_min := FilterRequest.price_min f;
     FilterRequest.price_max := FilterRequest.price_max f;
     FilterRequest.colors := FilterRequest.colors f;
     FilterRequest.sizes := FilterRequest.sizes f;
     FilterRequest.tags := FilterRequest.tags f;
     FilterRequest.sort := FilterRequest.sort f;
     FilterRequest.search := Some s;
     FilterRequest.page := FilterRequest.page f;
     FilterRequest.limit := FilterRequest.limit f |}.

Definition lace_bra_doc : Document :=
  {| _id := oid_of_counter 0; body := product_model lace_bra |}.

Definition without_search (f : FilterRequest.t) : FilterRequest.t :=
  {| FilterRequest.category := FilterRequest.category f;
     FilterRequest.subcategory := FilterRequest.subcategory f;
     FilterRequest.price_min := FilterRequest.price_min f;
     FilterRequest.price_max := FilterRequest.price_max f;
     FilterRequest.colors := FilterRequest.colors f;
     FilterRequest.sizes := FilterRequest.sizes f;
     FilterRequest.tags := FilterRequest.tags f;
     FilterRequest.sort := FilterRequest.sort f;
     FilterRequest.search := None;
     FilterRequest.page := FilterRequest.page f;
     FilterRequest.limit := FilterRequest.limit f |}.

(** ** Paging and sorting *)

Definition with_paging (page limit : Z) (f : FilterRequest.t) : FilterRequest.t :=
  {| FilterRequest.category := FilterRequest.category f;
     FilterRequest.subcategory := FilterRequest.subcategory f;
     FilterRequest.price_min := FilterRequest.price_min f;
     FilterRequest.price_max := FilterRequest.price_max f;
     FilterRequest.colors := FilterRequest.colors f;
     FilterRequest.sizes := FilterRequest.sizes f;
     FilterRequest.tags := FilterRequest.tags f;
     FilterRequest.sort := FilterRequest.sort f;
     FilterRequest.search := FilterRequest.search f;
     FilterRequest.page := page;
     FilterRequest.limit := limit |}.

Definition with_sort (tag : string) (f : FilterRequest.t) : FilterRequest.t :=
  {| FilterRequest.category := FilterRequest.category f;
     FilterRequest.subcategory := FilterRequest.subcategory f;
     FilterRequest.price_min := FilterRequest.price_min f;
     FilterRequest.price_max := FilterRequest.price_max f;
     FilterRequest.colors := FilterRequest.colors f;
     FilterRequest.sizes := FilterRequest.sizes f;
     FilterRequest.tags := FilterRequest.tags f;
     FilterRequest.sort := Some tag;
     FilterRequest.search := FilterRequest.search f;
     FilterRequest.page := FilterRequest.page f;
     FilterRequest.limit := FilterRequest.limit f |}.

(** Null sorts before every number. *)
Definition null_first_le (a b : option Q) : Prop :=
  match a, b with
  | None, _ => True
  | Some _, None => False
  | Some x, Some y => (x <= y)%Q
  end.

Definition price_le (a b : Model) : Prop :=
  match a, b with
  | product_model p, product_model q => (Product.price p <= Product.price q)%Q
  | _, _ => False
  end.

Definition rating_le (a b : Model) : Prop :=
  match a, b with
  | product_model p, product_model q =>
      null_first_le (Product.rating p) (Product.rating q)
  | _, _ => False
  end.

Definition recognised (tag : option string) : Prop :=
  tag = Some "price_asc" \/ tag = Some "price_desc" \/ tag = Some "rating".

(** ** Facets *)

(** [fs] lists, by descending count, every non-empty value of [keys] once,
    with the number of its occurrences in [keys]. *)
Definition facets_of (keys : list string) (fs : list Facet) : Prop :=
  NoDup (map value fs)
  /\ (forall v n, In {| value := v; count := n |} fs
                  <-> v <> "" /\ n = count_occ string_dec keys v /\ (0 < n)%nat)
  /\ StronglySorted (fun a b => (count b <= count a)%nat) fs.

(** The count recorded for [key] in a list of groups, 0 when it has none. *)
Fixpoint count_of (key : string) (groups : list (string * nat)) : nat :=
  match groups with
  | [] => 0%nat
  | (k, n) :: rest => if String.eqb key k then n else count_of key rest
  end.

(** ** Errors *)

Definition not_configured : exn := HTTPException 500 "Database not configured".

Definition HTTP_503_SERVICE_UNAVAILABLE : Z := 503.

Definition is_service_unavailable (e : exn) : bool :=
  match e with
  | HTTPException status_code _ => status_code =? HTTP_503_SERVICE_UNAVAILABLE
  | _ => false
  end.

(** ** Seeding *)

(** The documents that seeding [products] adds when every insert succeeds. *)
Fixpoint stored_docs (d : Database) (products : list Product.t) : list Document :=
  match products with
  | [] => []
  | prod :: rest =>
      {| _id := oid_of_counter (oid_counter d); body := product_model prod |}
        :: stored_docs (store_product d prod) rest
  end.

Fixpoint all_inserts_succeed (insert_raises : Database -> string -> Model -> bool)
         (d : Database) (products : list Product.t) : bool :=
  match products with
  | [] => true
  | prod :: rest =>
      negb (insert_raises d "product" (product_model prod))
      && all_inserts_succeed insert_raises (store_product d prod) rest
  end.

(** A store that never fails, and one whose collections hold at most
    [capacity] documents. *)
Definition never_raises : Database -> string -> Model -> bool :=
  fun _ _ _ => false.

Definition full_at (capacity : nat) : Database -> string -> Model -> bool :=
  fun d name _ => (capacity <=? List.length (collections d name))%nat.

(** The three facts that grouping maintains. *)
Definition counts (seen : list string) (groups : list (string * nat)) : Prop :=
  NoDup (map fst groups)
  /\ Forall (fun g => (0 < snd g)%nat) groups
  /\ forall k, count_of k groups = count_occ string_dec seen k.

(* ------------------------------------------------------------------------- *)
(** ** main.py: the liveness, schema and diagnostic handlers *)

Definition read_root : string := "Lingerie Store Backend Running".

Definition get_schema : list string := ["user"; "product"; "order"].

Module TestResponse.
Record t := {
  backend : string;
  database : string;
  database_url : option string;
  database_name : option string;
  connection_status : string;
  collections : list string
}.

Definition set_database (v : string) (r : t) : t :=
  {| backend := backend r; database := v; database_url := database_url r;
     database_name := database_name r; connection_status := connection_status r;
     collections := collections r |}.

Definition set_database_url (v : option string) (r : t) : t :=
  {| backend := backend r; database := database r; database_url := v;
     database_name := database_name r; connection_status := connection_status r;
     collections := collections r |}.

Definition set_database_name (v : option string) (r : t) : t :=
  {| backend := backend r; database := database r; database_url := database_url r;
     database_name := v; connection_status := connection_status r;
     collections := collections r |}.

Definition set_connection_status (v : string) (r : t) : t :=
  {| backend := backend r; database := database r; database_url := database_url r;
     database_name := database_name r; connection_status := v;
     collections := collections r |}.

Definition set_collections (v : list string) (r : t) : t :=
  {| backend := backend r; database := database r; database_url := database_url r;
     database_name := database_name r; connection_status := connection_status r;
     collections := v |}.
End TestResponse.

(** [str(e)] *)
Definition exn_str (e : exn) : string :=
  match e with
  | HTTPException _ detail => detail
  | OperationFailure msg => msg
  | PyMongoError msg => msg
  end.

(** Truthiness of what [os.getenv] returns: set and not empty. *)
Definition truthy_env (v : option string) : bool :=
  match v with
  | Some s => truthy_str s
  | None => false
  end.

(** [s[:n]]: the first [n] characters. *)
Definition slice_to (n : nat) (s : string) : string :=
  string_of_list_ascii (List.concat (firstn n (characters s))).

Section Diagnostics.

(** [db.list_collection_names()], which may raise. *)
Variable list_collection_names : Database -> result (list string).

(** [db.name], when the handle has that attribute. *)
Variable name_of : Database -> option string.

(** [os.getenv] *)
Variable getenv : string -> option string.

(** GET /test.  The outer handler of the source catches what the test of the
    handle and the reading of its name raise; neither raises here. *)
Definition test_database : M TestResponse.t :=
  db <- get_db ;;
  let response :=
    {| TestResponse.backend := "✅ Running";
       TestResponse.database := "❌ Not Available";
       TestResponse.database_url := None;
       TestResponse.database_name := None;
       TestResponse.connection_status := "Not Connected";
       TestResponse.collections := [] |} in
  let response :=
    match db with
    | Some db =>
        let response := TestResponse.set_database "✅ Available" response in
        let response := TestResponse.set_database_url (Some "✅ Configured") response in
        let response :=
          TestResponse.set_database_name
            (Some (match name_of db with
                   | Some name => name
                   | None => "✅ Connected"
                   end)) response in
        let response := TestResponse.set_connection_status "Connected" response in
        match list_collection_names db with
        | Ok collections =>
            let response := TestResponse.set_collections (firstn 10 collections) response in
            TestResponse.set_database "✅ Connected & Working" response
        | Raise e =>
            TestResponse.set_database
              ("⚠️  Connected but Error: " ++ slice_to 50 (exn_str e))%string response
        end
    | None => TestResponse.set_database "⚠️  Available but not initialized" response
    end in
  let response :=
    TestResponse.set_database_url
      (Some (if truthy_env (getenv "DATABASE_URL") then "✅ Set" else "❌ Not Set"))
      response in
  let response :=
    TestResponse.set_database_name
      (Some (if truthy_env (getenv "DATABASE_NAME") then "✅ Set" else "❌ Not Set"))
      response in
  ret response.

End Diagnostics.

(** ** Vocabulary of the further properties *)

(** The price of [p] is within the bounds of the request, both inclusive. *)
Definition in_price_range (f : FilterRequest.t) (p : Product.t) : Prop :=
  (forall lo, FilterRequest.price_min f = Some lo -> (lo <= Product.price p)%Q)
  /\ (forall hi, FilterRequest.price_max f = Some hi -> (Product.price p <= hi)%Q).

(** A request that sets no filter: every optional field is absent or falsy and
    there is no price bound. *)
Definition unfiltered (f : FilterRequest.t) : Prop :=
  keep_truthy truthy_str (FilterRequest.category f) = None
  /\ keep_truthy truthy_str (FilterRequest.subcategory f) = None
  /\ keep_truthy truthy_list (FilterRequest.colors f) = None
  /\ keep_truthy truthy_list (FilterRequest.sizes f) = None
  /\ keep_truthy truthy_list (FilterRequest.tags f) = None
  /\ keep_truthy truthy_str (FilterRequest.search f) = None
  /\ FilterRequest.price_min f = None
  /\ FilterRequest.price_max f = None.

(** Whether the server accepts the search text of a request. *)
Definition pattern_ok (engine : Engine)
           (f : FilterRequest.t) : bool :=
  match FilterRequest.search f with
  | Some s =>
      if truthy_str s
      then match regex_compile engine s "i" with
           | Some _ => true
           | None => false
           end
      else true
  | None => true
  end.

Definition with_category (c : string) (f : FilterRequest.t) : FilterRequest.t :=
  {| FilterRequest.category := Some c;
     FilterRequest.subcategory := FilterRequest.subcategory f;
     FilterRequest.price_min := FilterRequest.price_min f;
     FilterRequest.price_max := FilterRequest.price_max f;
     FilterRequest.colors := FilterRequest.colors f;
     FilterRequest.sizes := FilterRequest.sizes f;
     FilterRequest.tags := FilterRequest.tags f;
     FilterRequest.sort := FilterRequest.sort f;
     FilterRequest.search := FilterRequest.search f;
     FilterRequest.page := FilterRequest.page f;
     FilterRequest.limit := FilterRequest.limit f |}.

Definition with_price_max (hi : Q) (f : FilterRequest.t) : FilterRequest.t :=
  {| FilterRequest.category := FilterRequest.category f;
     FilterRequest.subcategory := FilterRequest.subcategory f;
     FilterRequest.price_min := FilterRequest.price_min f;
     FilterRequest.price_max := Some hi;
     FilterRequest.colors := FilterRequest.colors f;
     FilterRequest.sizes := FilterRequest.sizes f;
     FilterRequest.tags := FilterRequest.tags f;
     FilterRequest.sort := FilterRequest.sort f;
     FilterRequest.search := FilterRequest.search f;
     FilterRequest.page := FilterRequest.page f;
     FilterRequest.limit := FilterRequest.limit f |}.

Definition item_title (it : Item) : string :=
  match item_body it with
  | product_model p => Product.title p
  | order_model _ => ""
  end.

Definition sample_order : Order.t :=
  {| Order.items :=
       [ {| CartItem.product_id := "000000000000000000000000";
            CartItem.title := "Lace Bra";
            CartItem.price := 20 # 1;
            CartItem.quantity := 1;
            CartItem.variant := Some (variant "34B" "Black");
            CartItem.image := None |} ];
     Order.subtotal := 20 # 1;
     Order.discount := 0;
     Order.shipping := 0;
     Order.total := 20 # 1;
     Order.currency := "INR";
     Order.customer_name := "A. Customer";
     Order.customer_email := "customer@example.com";
     Order.customer_phone := None;
     Order.shipping_address := "1 Main Street";
     Order.notes := None;
     Order.created_at := None |}.

(** The sum of the counts of the groups with a non-empty key. *)
Definition nonempty_total (groups : list (string * nat)) : nat :=
  list_sum (map snd (filter (fun c => truthy_str (fst c)) groups)).

Definition store_order (d : Database) (order : Order.t) : Database :=
  store "order" (order_model order) d.

(** ** The entries of the query *)

(** What the query of a request holds: the active clause, one entry for each
    filter field that is truthy, and one price entry when a bound is given. *)
Definition query_entry (f : FilterRequest.t) (e : string * qvalue) : Prop :=
  e = ("is_active", Cond (Equals (SBool true)))
  \/ (exists c, FilterRequest.category f = Some c /\ c <> ""
                /\ e = ("category", Cond (Equals (SStr c))))
  \/ (exists c, FilterRequest.subcategory f = Some c /\ c <> ""
                /\ e = ("subcategory", Cond (Equals (SStr c))))
  \/ (exists cs, FilterRequest.colors f = Some cs /\ cs <> []
                 /\ e = ("variants.color", Cond (In_ cs)))
  \/ (exists ss, FilterRequest.sizes f = Some ss /\ ss <> []
                 /\ e = ("variants.size", Cond (In_ ss)))
  \/ (exists ts, FilterRequest.tags f = Some ts /\ ts <> []
                 /\ e = ("tags", Cond (In_ ts)))
  \/ (exists s, FilterRequest.search f = Some s /\ s <> ""
                /\ e = search_clause s)
  \/ ((FilterRequest.price_min f <> None \/ FilterRequest.price_max f <> None)
      /\ e = ("price", Cond (Ops (build_price_filter f)))).

(** What the price entry holds: a lower bound for [price_min] and an upper
    bound for [price_max], whatever their values. *)
Definition price_op (f : FilterRequest.t) (op : string * Q) : Prop :=
  (exists lo, FilterRequest.price_min f = Some lo /\ op = ("$gte", lo))
  \/ (exists hi, FilterRequest.price_max f = Some hi /\ op = ("$lte", hi)).

(** ** Relaxing a request *)

(** A filter field of [g] is relaxed from that of [f] when it is absent or
    falsy, or the same as in [f]. *)
Definition relaxed_field {A} (truthy : A -> bool) (of_g of_f : option A) : Prop :=
  keep_truthy truthy of_g = None \/ of_g = of_f.

(** [g] asks for no more than [f]: each of its filter fields is relaxed from
    that of [f] and each of its price bounds is absent or that of [f]. *)
Definition relaxes (g f : FilterRequest.t) : Prop :=
  relaxed_field truthy_str (FilterRequest.category g) (FilterRequest.category f)
  /\ relaxed_field truthy_str (FilterRequest.subcategory g) (FilterRequest.subcategory f)
  /\ relaxed_field truthy_list (FilterRequest.colors g) (FilterRequest.colors f)
  /\ relaxed_field truthy_list (FilterRequest.sizes g) (FilterRequest.sizes f)
  /\ relaxed_field truthy_list (FilterRequest.tags g) (FilterRequest.tags f)
  /\ relaxed_field truthy_str (FilterRequest.search g) (FilterRequest.search f)
  /\ (FilterRequest.price_min g = None
      \/ FilterRequest.price_min g = FilterRequest.price_min f)
  /\ (FilterRequest.price_max g = None
      \/ FilterRequest.price_max g = FilterRequest.price_max f).

(** ** The shape of the characters of a string *)

(** A character after the first one: a byte that is not a continuation byte,
    followed by continuation bytes. *)
Definition later_char (g : char_t) : Prop :=
  match g with
  | b :: t => is_continuation b = false /\ forallb is_continuation t = true
  | [] => False
  end.

(** The first character may also start with a stray continuation byte. *)
Definition grouped (gs : list char_t) : Prop :=
  match gs with
  | [] => True
  | g :: rest =>
      match g with
      | _ :: t => forallb is_continuation t = true
      | [] => False
      end
      /\ Forall later_char rest
  end.

(* ------------------------------------------------------------------------- *)
(** * Properties *)

(** ** Lists: sorting, paging *)

Section IsortFacts.
Variable A : Type.
Variable leb : A -> A -> bool.

Lemma insert_sorted_perm (x : A) (l : list A) :
    Permutation (x :: l) (insert_sorted leb x l).
Proof.
    induction l as [|y l IH]; simpl.
    - apply Permutation_refl.
    - destruct (leb x y).
      + apply Permutation_refl.
      + eapply perm_trans; [apply perm_swap|]. now apply perm_skip.
Qed.

Lemma isort_perm (l : list A) : Permutation l (isort leb l).
Proof.
    induction l as [|x l IH]; simpl.
    - constructor.
    - eapply perm_trans; [apply perm_skip, IH|]. apply insert_sorted_perm.
Qed.

Lemma isort_In (x : A) (l : list A) : In x (isort leb l) <-> In x l.
Proof.
    split; intro H.
    - eapply Permutation_in; [apply Permutation_sym, isort_perm|exact H].
    - eapply Permutation_in; [apply isort_perm|exact H].
Qed.

Hypothesis leb_total : forall a b, leb a b = true \/ leb b a = true.
Hypothesis leb_trans : forall a b c, leb a b = true -> leb b c = true -> leb a c = true.

Lemma insert_sorted_sorted (x : A) (l : list A) :
    StronglySorted (fun a b => leb a b = true) l ->
    StronglySorted (fun a b => leb a b = true) (insert_sorted leb x l).
Proof.
    induction 1 as [|y l Hs IH Hall]; simpl.
    - repeat constructor.
    - destruct (leb x y) eqn:E.
      + constructor; [now constructor|].
        constructor; [exact E|].
        eapply Forall_impl; [|exact Hall]. intros z Hz. now apply leb_trans with y.
      + constructor; [exact IH|].
        destruct (leb_total x y) as [F|F]; [congruence|].
        rewrite Forall_forall in *. intros z Hz.
        apply (Permutation_in _ (Permutation_sym (insert_sorted_perm x l))) in Hz.
        destruct Hz as [<-|Hz]; [exact F|now apply Hall].
Qed.

Lemma isort_sorted (l : list A) :
    StronglySorted (fun a b => leb a b = true) (isort leb l).
Proof.
    induction l as [|x l IH]; simpl.
    - constructor.
    - now apply insert_sorted_sorted.
Qed.
End IsortFacts.

Lemma In_firstn {A} (x : A) (n : nat) (l : list A) : In x (firstn n l) -> In x l.
Proof.
  revert l; induction n as [|n IH]; intros l H; simpl in *; [contradiction|].
  destruct l as [|y l]; [exact H|]. destruct H as [H|H]; [now left|right; now apply IH].
Qed.

Lemma StronglySorted_skipn {A} (R : A -> A -> Prop) (n : nat) (l : list A) :
  StronglySorted R l -> StronglySorted R (skipn n l).
Proof.
  revert l; induction n as [|n IH]; intros l H; simpl; [exact H|].
  destruct l as [|x l]; [constructor|]. apply IH. now inversion H.
Qed.

Lemma StronglySorted_firstn {A} (R : A -> A -> Prop) (n : nat) (l : list A) :
  StronglySorted R l -> StronglySorted R (firstn n l).
Proof.
  revert l; induction n as [|n IH]; intros l H; simpl; [constructor|].
  destruct l as [|x l]; [constructor|].
  inversion H as [|? ? Hs Hall]; subst.
  constructor; [now apply IH|].
  rewrite Forall_forall in *. intros y Hy. apply Hall. eapply In_firstn; eauto.
Qed.

Lemma StronglySorted_map {A B} (R : B -> B -> Prop) (f : A -> B) (l : list A) :
  StronglySorted (fun a b => R (f a) (f b)) l -> StronglySorted R (map f l).
Proof.
  induction 1 as [|x l Hs IH Hall]; simpl; constructor; auto.
  rewrite Forall_forall in *. intros y Hy.
  apply in_map_iff in Hy. destruct Hy as (z & <- & Hz). now apply Hall.
Qed.

Lemma In_skipn {A} (x : A) (n : nat) (l : list A) : In x (skipn n l) -> In x l.
Proof.
  revert l; induction n as [|n IH]; intros l H; simpl in *; [exact H|].
  destruct l as [|y l]; [exact H|]. right. now apply IH.
Qed.

Lemma In_apply_limit (d : Document) (n : Z) (l : list Document) :
  In d (apply_limit n l) -> In d l.
Proof.
  unfold apply_limit. destruct (n =? 0); [auto|]. apply In_firstn.
Qed.

Lemma In_apply_sort (d : Document) spec (l : list Document) :
  In d (apply_sort spec l) <-> In d l.
Proof.
  destruct spec as [s|]; simpl; [apply isort_In|reflexivity].
Qed.

Lemma In_page (d : Document) n k spec (l : list Document) :
  In d (apply_limit n (skipn k (apply_sort spec l))) -> In d l.
Proof.
  intro H. apply In_apply_limit, In_skipn in H. now apply In_apply_sort in H.
Qed.

(** ** The query built from a filter request *)

Section QueryFacts.
Variable engine : Engine.


Lemma matches_app (q1 q2 : query_t) (d : Document) :
    matches engine (q1 ++ q2) d = matches engine q1 d && matches engine q2 d.
Proof. unfold matches. apply forallb_app. Qed.

Lemma query_ok_app (q1 q2 : query_t) :
    query_ok engine (q1 ++ q2) = query_ok engine q1 && query_ok engine q2.
Proof. unfold query_ok. apply forallb_app. Qed.

Lemma matches_set_if {A} (truthy : A -> bool) (o : option A) entry q d :
    matches engine (set_if truthy o entry q) d = matches engine q d && clause engine truthy o entry d.
Proof.
    unfold set_if, clause. destruct o as [a|]; [destruct (truthy a)|].
    - rewrite matches_app. simpl. now rewrite andb_true_r.
    - now rewrite andb_true_r.
    - now rewrite andb_true_r.
Qed.

  (** The query is the conjunction of the active clause, of one clause per
      truthy filter field, and of the price clause. *)
Lemma matches_build_query (filters : FilterRequest.t) (d : Document) :
    matches engine (build_query filters) d =
      active_clause engine d
      && clause engine truthy_str (FilterRequest.category filters)
           (fun c => ("category", Cond (Equals (SStr c)))) d
      && clause engine truthy_str (FilterRequest.subcategory filters)
           (fun c => ("subcategory", Cond (Equals (SStr c)))) d
      && clause engine truthy_list (FilterRequest.colors filters)
           (fun cs => ("variants.color", Cond (In_ cs))) d
      && clause engine truthy_list (FilterRequest.sizes filters)
           (fun ss => ("variants.size", Cond (In_ ss))) d
      && clause engine truthy_list (FilterRequest.tags filters)
           (fun ts => ("tags", Cond (In_ ts))) d
      && clause engine truthy_str (FilterRequest.search filters)
           (fun s => ("$or", OrOf [[("title", Regex s "i")];
                                   [("description", Regex s "i")]])) d
      && price_clause engine filters d.
Proof.
    unfold build_query, price_clause.
    destruct (truthy_list (build_price_filter filters)).
    - rewrite matches_app. rewrite !matches_set_if.
      unfold active_clause. simpl. now rewrite !andb_true_r.
    - rewrite !matches_set_if. unfold active_clause. simpl. now rewrite !andb_true_r.
Qed.

Lemma active_clause_spec (d : Document) :
    active_clause engine d = true <->
    exists p, body d = product_model p /\ Product.is_active p = true.
Proof.
    unfold active_clause, entry_matches, field_matches, values_at. simpl.
    destruct (body d) as [p|o]; simpl.
    - rewrite orb_false_r. split.
      + intro H. exists p. split; [reflexivity|]. now destruct (Product.is_active p).
      + intros (p' & [= <-] & ->). reflexivity.
    - split; [discriminate|]. intros (p & H & _). discriminate.
Qed.

Lemma matches_active (filters : FilterRequest.t) (d : Document) :
    matches engine (build_query filters) d = true ->
    exists p, body d = product_model p /\ Product.is_active p = true.
Proof.
    rewrite matches_build_query, !andb_true_iff.
    intro H. apply active_clause_spec. tauto.
Qed.

End QueryFacts.


(** ** The search handler, unfolded *)

Section SearchFacts.
Variable engine : Engine.

Lemma search_products_run (db : Database) (filters : FilterRequest.t) :
  search_products engine filters (Some db) =
    if query_ok engine (build_query filters)
    then (Ok (search_response engine db filters), Some db)
    else (Raise (OperationFailure "Regular expression is invalid"), Some db).
Proof.
  unfold search_products, bind, get_db, lift, ret, count_documents, to_list,
    aggregate, run_query, search_response, matching, page_of, skip_of.
  destruct (query_ok engine (build_query filters)) eqn:E.
  - destruct (build_sort_spec filters) as [spec|]; simpl; rewrite E; reflexivity.
  - destruct (build_sort_spec filters) as [spec|]; simpl; reflexivity.
Qed.

Lemma search_products_ok (db : Database) (filters : FilterRequest.t) :
  accepted engine filters ->
  search_products engine filters (Some db) =
    (Ok (search_response engine db filters), Some db).
Proof. intro H. rewrite search_products_run. unfold accepted in H. now rewrite H. Qed.

Lemma search_products_inv (w w' : World) (filters : FilterRequest.t) r :
  search_products engine filters w = (Ok r, w') ->
  exists db, w = Some db /\ w' = Some db /\ r = search_response engine db filters.
Proof.
  destruct w as [db|].
  - rewrite search_products_run.
    destruct (query_ok engine (build_query filters)); [|discriminate].
    intros [= <- <-]. now exists db.
  - discriminate.
Qed.

Lemma page_items_matching (db : Database) (filters : FilterRequest.t) (it : Item) :
  In it (SearchResponse.items (search_response engine db filters)) ->
  exists d, it = serialise d /\ In d (matching engine db filters).
Proof.
  simpl. intro H. apply in_map_iff in H. destruct H as (d & <- & Hd).
  exists d. split; [reflexivity|]. unfold page_of in Hd. now apply In_page in Hd.
Qed.

Lemma matching_spec (db : Database) (filters : FilterRequest.t) (d : Document) :
  In d (matching engine db filters) <->
  In d (getitem db "product") /\ matches engine (build_query filters) d = true.
Proof. unfold matching. apply filter_In. Qed.

End SearchFacts.

(** C1. For every filter request, every product that the search returns has
    its active flag equal to true, whatever the other filter settings are. *)
Theorem search_returns_only_active
        (engine : Engine)
        (filters : FilterRequest.t) (w w' : World) (r : SearchResponse.t) :
  search_products engine filters w = (Ok r, w') ->
  Forall (fun it => is_active_product (item_body it)) (SearchResponse.items r).
Proof.
  intro H. apply search_products_inv in H. destruct H as (db & -> & -> & ->).
  apply Forall_forall. intros it Hit.
  apply page_items_matching in Hit. destruct Hit as (d & -> & Hd).
  apply matching_spec in Hd. destruct Hd as [_ Hd].
  apply matches_active in Hd. exact Hd.
Qed.

Lemma search_returns_only_active_witness :
  search_products no_pcre no_filter (Some sample_db)
    = (Ok (search_response no_pcre sample_db no_filter), Some sample_db)
  /\ Forall (fun it => is_active_product (item_body it))
       (SearchResponse.items (search_response no_pcre sample_db no_filter)).
Proof.
  split; [reflexivity|].
  apply (@search_returns_only_active no_pcre no_filter
           (Some sample_db) (Some sample_db)).
  reflexivity.
Defined.

Example search_sample_titles :
  map (fun it => match item_body it with
                 | product_model p => Product.title p
                 | order_model _ => ""
                 end)
      (SearchResponse.items (search_response no_pcre sample_db no_filter))
  = ["Lace Bra"; "Cotton Brief"].
Proof. reflexivity. Qed.

(** ** Membership clauses: colors, sizes, tags *)

Lemma mem_str_In (s : string) (l : list string) : mem_str s l = true <-> In s l.
Proof.
  unfold mem_str. rewrite existsb_exists. split.
  - intros (x & Hx & E). apply String.eqb_eq in E. now subst.
  - intro H. exists s. split; [exact H|apply String.eqb_refl].
Qed.

Lemma In_set_if_keep {A} (truthy : A -> bool) (o : option A) entry q e :
  In e q -> In e (set_if truthy o entry q).
Proof.
  unfold set_if. destruct o as [a|]; [destruct (truthy a)|]; auto.
  intro H. apply in_or_app. now left.
Qed.

Lemma In_set_if_new {A} (truthy : A -> bool) (a : A) entry q e :
  e = entry a -> truthy a = true -> In e (set_if truthy (Some a) entry q).
Proof.
  intros -> H. unfold set_if. rewrite H. apply in_or_app. right. now left.
Qed.

Lemma In_price_keep (pf : list (string * Q)) (q : query_t) e :
  In e q -> In e (if truthy_list pf then q ++ [("price", Cond (Ops pf))] else q).
Proof. intro H. destruct (truthy_list pf); [apply in_or_app; now left|exact H]. Qed.

Lemma truthy_list_nonempty {A} (l : list A) : l <> [] -> truthy_list l = true.
Proof. destruct l; [congruence|reflexivity]. Qed.

Ltac query_mem :=
  repeat first
    [ apply In_price_keep
    | apply In_set_if_new; [reflexivity|assumption]
    | apply In_set_if_keep ].

Section MembershipFacts.
Variable engine : Engine.

Lemma matches_In (q : query_t) (d : Document) e :
  matches engine q d = true -> In e q -> entry_matches engine d e = true.
Proof. unfold matches. rewrite forallb_forall. auto. Qed.

Lemma variant_clause_spec (path : string) (key : ProductVariant.t -> string)
      (vs : list string) (d : Document) :
  (forall p, body d = product_model p ->
     values_at d path = map (fun v => SStr (key v)) (Product.variants p)) ->
  (forall o, body d = order_model o -> values_at d path = [SNull]) ->
  entry_matches engine d (path, Cond (In_ vs)) = true <->
  has_variant_with key vs (body d).
Proof.
  intros Hp Ho. unfold entry_matches, field_matches, has_variant_with. simpl.
  destruct (body d) as [p|o] eqn:E.
  - rewrite (Hp p eq_refl), existsb_exists. split.
    + intros (x & Hx & Hh). apply in_map_iff in Hx. destruct Hx as (v & <- & Hv).
      simpl in Hh. apply mem_str_In in Hh. now exists p, v.
    + intros (p' & v & [= <-] & Hv & Hin). exists (SStr (key v)). split.
      * apply in_map_iff. now exists v.
      * simpl. now apply mem_str_In.
  - rewrite (Ho o eq_refl). simpl. split; [discriminate|].
    intros (p & v & H & _). discriminate.
Qed.

Lemma color_clause_spec (vs : list string) (d : Document) :
  entry_matches engine d ("variants.color", Cond (In_ vs)) = true <->
  has_variant_with ProductVariant.color vs (body d).
Proof.
  apply variant_clause_spec; intros x E; unfold values_at; rewrite E; reflexivity.
Qed.

Lemma size_clause_spec (vs : list string) (d : Document) :
  entry_matches engine d ("variants.size", Cond (In_ vs)) = true <->
  has_variant_with ProductVariant.size vs (body d).
Proof.
  apply variant_clause_spec; intros x E; unfold values_at; rewrite E; reflexivity.
Qed.

Lemma tags_clause_spec (vs : list string) (d : Document) :
  entry_matches engine d ("tags", Cond (In_ vs)) = true <->
  has_tag_in vs (body d).
Proof.
  unfold entry_matches, field_matches, has_tag_in, values_at. simpl.
  destruct (body d) as [p|o]; simpl.
  - destruct (Product.tags p) as [ts|] eqn:E.
    + rewrite existsb_exists. split.
      * intros (x & Hx & Hh). apply in_map_iff in Hx. destruct Hx as (t & <- & Ht).
        simpl in Hh. apply mem_str_In in Hh. now exists p, ts, t.
      * intros (p' & ts' & t & [= <-] & Hts & Ht & Hin).
        rewrite E in Hts. injection Hts as <-.
        exists (SStr t). split; [apply in_map_iff; now exists t|].
        simpl. now apply mem_str_In.
    + simpl. split; [discriminate|].
      intros (p' & ts' & t & [= <-] & Hts & _). congruence.
  - split; [discriminate|]. intros (p & ts & t & H & _). discriminate.
Qed.

(** Every returned item satisfies every entry of the query. *)
Lemma returned_items_satisfy (filters : FilterRequest.t) (w w' : World)
      (r : SearchResponse.t) (e : string * qvalue) (P : Model -> Prop) :
  search_products engine filters w = (Ok r, w') ->
  In e (build_query filters) ->
  (forall d, entry_matches engine d e = true -> P (body d)) ->
  Forall (fun it => P (item_body it)) (SearchResponse.items r).
Proof.
  intros H He HP. apply search_products_inv in H. destruct H as (db & -> & -> & ->).
  apply Forall_forall. intros it Hit.
  apply page_items_matching in Hit. destruct Hit as (d & -> & Hd).
  apply matching_spec in Hd. destruct Hd as [_ Hd].
  simpl. apply HP. eapply matches_In; eauto.
Qed.

End MembershipFacts.

(** C7. With a non-empty colors (sizes) set, the query holds a clause that a
    product satisfies exactly when one of its variants has a color (size) in
    the set; with a non-empty tags set, a clause that it satisfies exactly when
    one of its tags is in the set.  The clauses are entries of the conjunctive
    query, so every returned product satisfies them; with colors = {X} every
    returned product has a variant of color X. *)
Theorem membership_filters
        (engine : Engine)
        (filters : FilterRequest.t) :
  (forall cs, FilterRequest.colors filters = Some cs -> cs <> [] ->
     In ("variants.color", Cond (In_ cs)) (build_query filters)
     /\ (forall d, entry_matches engine d ("variants.color", Cond (In_ cs)) = true
                   <-> has_variant_with ProductVariant.color cs (body d))
     /\ (forall w w' r, search_products engine filters w = (Ok r, w') ->
           Forall (fun it => has_variant_with ProductVariant.color cs (item_body it))
                  (SearchResponse.items r))
     /\ (forall X w w' r, cs = [X] ->
           search_products engine filters w = (Ok r, w') ->
           Forall (fun it => exists p v, item_body it = product_model p
                                         /\ In v (Product.variants p)
                                         /\ ProductVariant.color v = X)
                  (SearchResponse.items r)))
  /\ (forall ss, FilterRequest.sizes filters = Some ss -> ss <> [] ->
     In ("variants.size", Cond (In_ ss)) (build_query filters)
     /\ (forall d, entry_matches engine d ("variants.size", Cond (In_ ss)) = true
                   <-> has_variant_with ProductVariant.size ss (body d))
     /\ (forall w w' r, search_products engine filters w = (Ok r, w') ->
           Forall (fun it => has_variant_with ProductVariant.size ss (item_body it))
                  (SearchResponse.items r)))
  /\ (forall ts, FilterRequest.tags filters = Some ts -> ts <> [] ->
     In ("tags", Cond (In_ ts)) (build_query filters)
     /\ (forall d, entry_matches engine d ("tags", Cond (In_ ts)) = true
                   <-> has_tag_in ts (body d))
     /\ (forall w w' r, search_products engine filters w = (Ok r, w') ->
           Forall (fun it => has_tag_in ts (item_body it))
                  (SearchResponse.items r))).
Proof.
  split; [|split].
  - intros cs Hcs Hne. apply truthy_list_nonempty in Hne.
    assert (Hin : In ("variants.color", Cond (In_ cs)) (build_query filters)).
    { unfold build_query. rewrite Hcs.
      query_mem. }
    split; [exact Hin|]. split; [intro d; apply color_clause_spec|].
    assert (Hret : forall w w' r,
               search_products engine filters w = (Ok r, w') ->
               Forall (fun it => has_variant_with ProductVariant.color cs (item_body it))
                      (SearchResponse.items r)).
    { intros w w' r H. eapply returned_items_satisfy; eauto.
      intros d. apply color_clause_spec. }
    split; [exact Hret|].
    intros X w w' r -> H. specialize (Hret w w' r H).
    eapply Forall_impl; [|exact Hret]. intros it (p & v & Hb & Hv & [Hc|[]]).
    now exists p, v.
  - intros ss Hss Hne. apply truthy_list_nonempty in Hne.
    assert (Hin : In ("variants.size", Cond (In_ ss)) (build_query filters)).
    { unfold build_query. rewrite Hss.
      query_mem. }
    split; [exact Hin|]. split; [intro d; apply size_clause_spec|].
    intros w w' r H. eapply returned_items_satisfy; eauto.
    intros d. apply size_clause_spec.
  - intros ts Hts Hne. apply truthy_list_nonempty in Hne.
    assert (Hin : In ("tags", Cond (In_ ts)) (build_query filters)).
    { unfold build_query. rewrite Hts.
      query_mem. }
    split; [exact Hin|]. split; [intro d; apply tags_clause_spec|].
    intros w w' r H. eapply returned_items_satisfy; eauto.
    intros d. apply tags_clause_spec.
Qed.

Lemma membership_filters_witness :
  FilterRequest.colors (with_colors ["Red"] no_filter) = Some ["Red"]
  /\ In ("variants.color", Cond (In_ ["Red"])) (build_query (with_colors ["Red"] no_filter))
  /\ Forall (fun it => has_variant_with ProductVariant.color ["Red"] (item_body it))
       (SearchResponse.items
          (search_response no_pcre sample_db (with_colors ["Red"] no_filter))).
Proof.
  destruct (membership_filters no_pcre (with_colors ["Red"] no_filter)) as [Hc _].
  destruct (Hc ["Red"] eq_refl ltac:(discriminate)) as (H1 & _ & H3 & _).
  split; [reflexivity|]. split; [exact H1|].
  apply (H3 (Some sample_db) (Some sample_db)). reflexivity.
Defined.

Example search_red_titles :
  map (fun it => match item_body it with
                 | product_model p => Product.title p
                 | order_model _ => ""
                 end)
      (SearchResponse.items
         (search_response no_pcre sample_db (with_colors ["Red"] no_filter)))
  = ["Lace Bra"].
Proof. reflexivity. Qed.

(** ** Falsy filter fields *)

Lemma set_if_keep_truthy {A} (truthy : A -> bool) (o : option A) entry q :
  set_if truthy (keep_truthy truthy o) entry q = set_if truthy o entry q.
Proof.
  unfold set_if, keep_truthy. destruct o as [a|]; [|reflexivity].
  destruct (truthy a) eqn:E; [now rewrite E|reflexivity].
Qed.

Lemma build_query_drop_falsy (f : FilterRequest.t) :
  build_query (drop_falsy f) = build_query f.
Proof.
  unfold build_query, build_price_filter, drop_falsy. simpl.
  now rewrite !set_if_keep_truthy.
Qed.

Lemma search_products_ext
      (engine : Engine)
      (f g : FilterRequest.t) (w : World) :
  build_query f = build_query g ->
  FilterRequest.sort f = FilterRequest.sort g ->
  FilterRequest.page f = FilterRequest.page g ->
  FilterRequest.limit f = FilterRequest.limit g ->
  search_products engine f w = search_products engine g w.
Proof.
  intros Hq Hs Hp Hl. unfold search_products, build_sort_spec.
  now rewrite Hq, Hs, Hp, Hl.
Qed.

(** ** Text search *)

Lemma char_eqb_eq (a b : char_t) : char_eqb a b = true <-> a = b.
Proof.
  unfold char_eqb. destruct (list_eq_dec Ascii.ascii_dec a b); split; congruence.
Qed.

Lemma parse_plain (cs : list char_t) :
  forallb (fun c => negb (is_special c)) cs = true -> parse cs = Some (map Lit cs).
Proof.
  induction cs as [|c cs IH]; simpl; [reflexivity|].
  rewrite andb_true_iff, negb_true_iff. intros [Hc Hcs].
  destruct (char_eqb c ["."%char]) eqn:E.
  - apply char_eqb_eq in E. subst c. discriminate.
  - rewrite Hc, (IH Hcs). reflexivity.
Qed.

Section LiteralFacts.
Variable fold : char_t -> char_t.

Lemma match_here_literal (cs subject : list char_t) :
  match_here fold true (map Lit cs) subject = true <->
  exists post, map fold subject = map fold cs ++ post.
Proof.
  revert subject. induction cs as [|c cs IH]; intros subject; simpl.
  - split; [intros _; now exists (map fold subject)|reflexivity].
  - destruct subject as [|x subject]; simpl.
    + split; [discriminate|]. intros (post & H). discriminate.
    + rewrite andb_true_iff, char_eqb_eq, IH. split.
      * intros [E (post & H)]. exists post. now rewrite E, H.
      * intros (post & H). injection H as E H. split; [now symmetry|now exists post].
Qed.

Lemma search_literal (cs subject : list char_t) :
  search_at_some_position fold true (map Lit cs) subject = true <->
  exists pre post, map fold subject = pre ++ map fold cs ++ post.
Proof.
  induction subject as [|x subject IH]; simpl.
  - rewrite orb_false_r, match_here_literal. simpl. split.
    + intros (post & H). now exists [], post.
    + intros (pre & post & H). destruct pre; [now exists post|discriminate].
  - rewrite orb_true_iff, match_here_literal, IH. simpl. split.
    + intros [(post & H)|(pre & post & H)].
      * now exists [], post.
      * exists (fold x :: pre), post. simpl. now rewrite H.
    + intros (pre & post & H). destruct pre as [|a pre]; simpl in H.
      * left. now exists post.
      * right. injection H as _ H. now exists pre, post.
Qed.

End LiteralFacts.

Section TextFacts.
Variable engine : Engine.

Lemma regex_compile_plain (s : string) :
  plain s ->
  regex_compile engine s "i" =
    Some (fun subject =>
            search_at_some_position (casefold engine) true
                                    (map Lit (characters s)) (characters subject)).
Proof. intro H. unfold regex_compile. now rewrite (parse_plain _ H). Qed.

Lemma regex_holds_plain (s : string) (x : scalar) :
  plain s ->
  holds engine (Regex s "i") x = true <->
  exists t, x = SStr t /\ ci_substring (casefold engine) s t.
Proof.
  intro H. unfold holds. rewrite (regex_compile_plain H).
  destruct x as [|b|t|q]; try (split; [discriminate|intros (t' & E & _); discriminate]).
  rewrite search_literal. unfold ci_substring. split.
  - intro Hs. now exists t.
  - intros (t' & [= <-] & Hs). exact Hs.
Qed.

Lemma search_clause_plain (s : string) (d : Document) :
  plain s ->
  entry_matches engine d (search_clause s) = true
  <-> text_occurs (casefold engine) s (body d).
Proof.
  intro H. unfold entry_matches, search_clause, field_matches, text_occurs, values_at.
  cbn [snd fst existsb forallb].
  destruct (body d) as [p|o]; cbn [snd fst existsb forallb String.eqb Ascii.eqb Bool.eqb].
  - rewrite !orb_false_r, !andb_true_r, orb_true_iff, !(regex_holds_plain _ H). split.
    + intros [(t & [= <-] & Hs)|(t & E & Hs)]; exists p; (split; [reflexivity|]).
      * now left.
      * right. destruct (Product.description p) as [text|]; [|discriminate].
        simpl in E. injection E as <-. now exists text.
    + intros (p' & [= <-] & [Hs|(text & E & Hs)]).
      * left. now exists (Product.title p).
      * right. rewrite E. now exists text.
  - unfold holds. destruct (regex_compile engine s "i");
      (split; [discriminate|intros (p & E & _); discriminate]).
Qed.

Lemma search_clause_ok_plain (s : string) :
  plain s -> entry_ok engine (search_clause s) = true.
Proof.
  intro H. unfold entry_ok, search_clause, condition_ok. simpl.
  now rewrite (regex_compile_plain H).
Qed.

End TextFacts.

Lemma truthy_str_nonempty (s : string) : s <> "" -> truthy_str s = true.
Proof. destruct s; [congruence|reflexivity]. Qed.

Lemma matches_search_and
      (engine : Engine)
      (f : FilterRequest.t) (s : string) (d : Document) :
  FilterRequest.search f = Some s -> truthy_str s = true ->
  matches engine (build_query f) d =
    matches engine (build_query (without_search f)) d
    && entry_matches engine d (search_clause s).
Proof.
  intros Hs Ht. rewrite !matches_build_query.
  unfold price_clause, build_price_filter. simpl. rewrite Hs. simpl. rewrite Ht.
  fold (search_clause s).
  rewrite andb_true_r, <- !andb_assoc.
  repeat (f_equal; []). apply andb_comm.
Qed.

(** C4, as the code has it.  The search string is handed to the store as a
    regular expression.  For a non-empty search string [s] without
    regular-expression metacharacters (and without NUL) the server accepts the
    clause, a product satisfies it exactly when the characters of [s] occur,
    letter case ignored as the store's engine folds it, in its title or in its
    description, and the clause is combined by AND with the rest of the
    query. *)
Theorem text_search_plain
        (engine : Engine)
        (f : FilterRequest.t) (s : string) :
  FilterRequest.search f = Some s -> s <> "" -> plain s ->
  entry_ok engine (search_clause s) = true
  /\ (forall d, entry_matches engine d (search_clause s) = true
                <-> text_occurs (casefold engine) s (body d))
  /\ (forall d, matches engine (build_query f) d =
                  matches engine (build_query (without_search f)) d
                  && entry_matches engine d (search_clause s))
  /\ (forall w w' r, search_products engine f w = (Ok r, w') ->
        Forall (fun it => text_occurs (casefold engine) s (item_body it))
               (SearchResponse.items r)).
Proof.
  intros Hs Hne Hp. pose proof (truthy_str_nonempty Hne) as Ht.
  split; [now apply search_clause_ok_plain|].
  split; [intro d; now apply search_clause_plain|].
  split; [intro d; now apply matches_search_and|].
  intros w w' r H.
  apply (@returned_items_satisfy engine f w w' r (search_clause s)
           (text_occurs (casefold engine) s) H).
  - unfold build_query. rewrite Hs. unfold search_clause. query_mem.
  - intro d. now apply search_clause_plain.
Qed.

Lemma text_search_plain_witness :
  FilterRequest.search (with_search "lace" no_filter) = Some "lace"
  /\ "lace" <> "" /\ plain "lace"
  /\ Forall (fun it => text_occurs ascii_casefold "lace" (item_body it))
       (SearchResponse.items
          (search_response no_pcre sample_db (with_search "lace" no_filter))).
Proof.
  split; [reflexivity|]. split; [discriminate|]. split; [reflexivity|].
  destruct (@text_search_plain no_pcre (with_search "lace" no_filter) "lace"
              eq_refl ltac:(discriminate) eq_refl) as (_ & _ & _ & H).
  apply (H (Some sample_db) (Some sample_db)). reflexivity.
Defined.

Example search_lace_titles :
  map (fun it => match item_body it with
                 | product_model p => Product.title p
                 | order_model _ => ""
                 end)
      (SearchResponse.items
         (search_response no_pcre sample_db (with_search "lace" no_filter)))
  = ["Lace Bra"].
Proof. reflexivity. Qed.

Example search_folds_the_case_of_the_engine :
  entry_matches latin_pcre
    {| _id := oid_of_counter 0;
       body := product_model (sample_product "ÉTÉ Bra" (20 # 1) "Bras" [] true) |}
    (search_clause "été") = true.
Proof. reflexivity. Qed.

Lemma no_dot_in_lace_bra : ~ ci_substring ascii_casefold "." "Lace Bra".
Proof.
  intros (pre & post & H).
  assert (Hin : In ["."%char] (map ascii_casefold (characters "Lace Bra"))).
  { rewrite H. apply in_or_app. right. now left. }
  vm_compute in Hin. intuition discriminate.
Qed.

(** C4, as the specification states it, fails: the search string ["."] is
    a pattern that every title with a character other than a newline matches,
    so the clause accepts a product whose title and description do not contain
    a dot. *)
Lemma text_search_is_not_substring_search :
  ~ (forall (s : string) (d : Document),
       s <> "" ->
       (entry_matches no_pcre d (search_clause s) = true
        <-> text_occurs (casefold no_pcre) s (body d))).
Proof.
  intro H. destruct (H "." lace_bra_doc ltac:(discriminate)) as [H1 _].
  destruct (H1 eq_refl) as (p & E & [Ht|(text & Hd & _)]).
  - injection E as <-. exact (no_dot_in_lace_bra Ht).
  - injection E as <-. discriminate.
Qed.

(** ** Paging *)

Lemma firstn_length_le {A} (n : nat) (l : list A) : (List.length (firstn n l) <= n)%nat.
Proof.
  revert l; induction n as [|n IH]; intros [|x l]; simpl; try lia.
  specialize (IH l). lia.
Qed.

Lemma apply_limit_pos (n : Z) (l : list Document) :
  0 < n -> apply_limit n l = firstn (Z.to_nat n) l.
Proof.
  intro H. unfold apply_limit. destruct (n =? 0) eqn:E; [lia|].
  now rewrite Z.abs_eq by lia.
Qed.

(** C8, as the code has it.  With a positive limit, the search skips
    max(0, (page-1) * limit) records of the filtered and sorted result and
    returns the next [limit] records, or fewer when the result ends; page 2
    with limit 10 gives the records 11 to 20. *)
Theorem pagination_positive_limit
        (engine : Engine)
        (f : FilterRequest.t) (db : Database) :
  0 < FilterRequest.limit f -> accepted engine f ->
  exists r,
    search_products engine f (Some db) = (Ok r, Some db)
    /\ SearchResponse.items r =
         map serialise
           (firstn (Z.to_nat (FilterRequest.limit f))
              (skipn (Z.to_nat (Z.max 0 ((FilterRequest.page f - 1) * FilterRequest.limit f)))
                 (apply_sort (build_sort_spec f) (matching engine db f))))
    /\ Z.of_nat (List.length (SearchResponse.items r)) <= FilterRequest.limit f
    /\ (FilterRequest.page f = 2 -> FilterRequest.limit f = 10 ->
        SearchResponse.items r =
          map serialise
            (firstn 10 (skipn 10 (apply_sort (build_sort_spec f)
                                    (matching engine db f))))).
Proof.
  intros Hl Ha. exists (search_response engine db f).
  split; [now apply search_products_ok|].
  assert (E : SearchResponse.items (search_response engine db f) =
              map serialise
                (firstn (Z.to_nat (FilterRequest.limit f))
                   (skipn (Z.to_nat (Z.max 0 ((FilterRequest.page f - 1) * FilterRequest.limit f)))
                      (apply_sort (build_sort_spec f) (matching engine db f))))).
  { simpl. unfold page_of, skip_of. now rewrite apply_limit_pos. }
  split; [exact E|]. split.
  - rewrite E, length_map.
    pose proof (firstn_length_le (Z.to_nat (FilterRequest.limit f))
                  (skipn (Z.to_nat (Z.max 0 ((FilterRequest.page f - 1) * FilterRequest.limit f)))
                     (apply_sort (build_sort_spec f) (matching engine db f)))). lia.
  - intros Hp H10. rewrite E, Hp, H10. reflexivity.
Qed.

Lemma pagination_positive_limit_witness :
  0 < FilterRequest.limit (with_paging 2 1 no_filter)
  /\ accepted no_pcre (with_paging 2 1 no_filter)
  /\ exists r,
       search_products no_pcre (with_paging 2 1 no_filter) (Some sample_db)
         = (Ok r, Some sample_db)
       /\ Z.of_nat (List.length (SearchResponse.items r)) <= 1.
Proof.
  split; [reflexivity|]. split; [reflexivity|].
  destruct (@pagination_positive_limit no_pcre (with_paging 2 1 no_filter) sample_db
              eq_refl eq_refl) as (r & H1 & _ & H3 & _).
  exists r. split; [exact H1|exact H3].
Defined.

Example second_page_of_one :
  map (fun it => match item_body it with
                 | product_model p => Product.title p
                 | order_model _ => ""
                 end)
      (SearchResponse.items
         (search_response no_pcre sample_db (with_paging 2 1 no_filter)))
  = ["Cotton Brief"].
Proof. reflexivity. Qed.

(** C8, as the specification states it, fails: a limit of 0 is no limit for
    the store, so the search returns every record after the skipped ones. *)
Lemma limit_zero_returns_everything :
  ~ (forall (f : FilterRequest.t) (db : Database) (r : SearchResponse.t),
       search_products no_pcre f (Some db) = (Ok r, Some db) ->
       Z.of_nat (List.length (SearchResponse.items r)) <= FilterRequest.limit f).
Proof.
  intro H.
  specialize (H (with_paging 1 0 no_filter) sample_db
                (search_response no_pcre sample_db (with_paging 1 0 no_filter))
                eq_refl).
  vm_compute in H. apply H. reflexivity.
Qed.

(** ** Sorting *)

Lemma key_leb_total (a b : option Q) : key_leb a b = true \/ key_leb b a = true.
Proof.
  destruct a as [x|], b as [y|]; simpl; auto.
  rewrite !Qle_bool_iff. destruct (Qlt_le_dec x y) as [H|H]; [left|right]; auto.
  now apply Qlt_le_weak.
Qed.

Lemma key_leb_trans (a b c : option Q) :
  key_leb a b = true -> key_leb b c = true -> key_leb a c = true.
Proof.
  destruct a as [x|], b as [y|], c as [z|]; simpl; auto; try discriminate.
  rewrite !Qle_bool_iff. apply Qle_trans.
Qed.

Lemma key_leb_spec (a b : option Q) : key_leb a b = true <-> null_first_le a b.
Proof.
  destruct a as [x|], b as [y|]; simpl; try tauto.
  - apply Qle_bool_iff.
  - split; [discriminate|contradiction].
Qed.

Lemma doc_leb_total (spec : string * Z) (a b : Document) :
  doc_leb spec a b = true \/ doc_leb spec b a = true.
Proof.
  destruct spec as [field direction]. unfold doc_leb.
  destruct (direction =? 1); apply key_leb_total.
Qed.

Lemma doc_leb_trans (spec : string * Z) (a b c : Document) :
  doc_leb spec a b = true -> doc_leb spec b c = true -> doc_leb spec a c = true.
Proof.
  destruct spec as [field direction]. unfold doc_leb.
  destruct (direction =? 1); intros H1 H2; eapply key_leb_trans; eauto.
Qed.

Lemma StronglySorted_impl_In {A} (R R' : A -> A -> Prop) (l : list A) :
  (forall a b, In a l -> In b l -> R a b -> R' a b) ->
  StronglySorted R l -> StronglySorted R' l.
Proof.
  intros H Hs. induction Hs as [|x l Hs IH Hall]; constructor.
  - apply IH. intros a b Ha Hb. apply H; now right.
  - rewrite Forall_forall in *. intros y Hy. apply H; [now left|now right|now apply Hall].
Qed.

Lemma StronglySorted_apply_limit (R : Document -> Document -> Prop) n l :
  StronglySorted R l -> StronglySorted R (apply_limit n l).
Proof.
  intro H. unfold apply_limit. destruct (n =? 0); [exact H|].
  now apply StronglySorted_firstn.
Qed.

Lemma StronglySorted_page (R : Document -> Document -> Prop) f l :
  StronglySorted R l -> StronglySorted R (page_of f l).
Proof.
  intro H. unfold page_of. now apply StronglySorted_apply_limit, StronglySorted_skipn.
Qed.

Lemma In_page_of (d : Document) f l : In d (page_of f l) -> In d l.
Proof. unfold page_of. intro H. now apply In_apply_limit, In_skipn in H. Qed.

Lemma apply_sort_perm spec (l : list Document) : Permutation l (apply_sort spec l).
Proof. destruct spec; simpl; [apply isort_perm|apply Permutation_refl]. Qed.

Section SortFacts.
Variable engine : Engine.

(** A page of the matching products sorted on [spec] is sorted for every
    relation that [doc_leb spec] implies on active products. *)
Lemma sorted_page (f : FilterRequest.t) (db : Database) (spec : string * Z)
      (R : Model -> Model -> Prop) :
  (forall a b, is_active_product (body a) -> is_active_product (body b) ->
               doc_leb spec a b = true -> R (body a) (body b)) ->
  StronglySorted (fun a b => R (item_body a) (item_body b))
    (map serialise (page_of f (isort (doc_leb spec) (matching engine db f)))).
Proof.
  intro HR. apply StronglySorted_map. simpl.
  apply StronglySorted_impl_In with (R := fun a b => doc_leb spec a b = true).
  - intros a b Ha Hb. apply HR.
    + apply In_page_of, isort_In, matching_spec in Ha.
      eapply matches_active. apply Ha.
    + apply In_page_of, isort_In, matching_spec in Hb.
      eapply matches_active. apply Hb.
  - apply StronglySorted_page, isort_sorted.
    + apply doc_leb_total.
    + apply doc_leb_trans.
Qed.

End SortFacts.

Lemma build_sort_spec_unrecognised (f : FilterRequest.t) :
  ~ recognised (FilterRequest.sort f) -> build_sort_spec f = None.
Proof.
  unfold recognised, build_sort_spec. intro H.
  destruct (FilterRequest.sort f) as [tag|]; [|reflexivity].
  destruct (String.eqb tag "price_asc") eqn:E1.
  { apply String.eqb_eq in E1. subst. tauto. }
  destruct (String.eqb tag "price_desc") eqn:E2.
  { apply String.eqb_eq in E2. subst. tauto. }
  destruct (String.eqb tag "rating") eqn:E3.
  { apply String.eqb_eq in E3. subst. tauto. }
  reflexivity.
Qed.

(** C9. The sort tag selects one of four behaviours.  The returned page is a
    page of a permutation of the matching products; with 'price_asc' its
    prices are non-decreasing, with 'price_desc' non-increasing, with 'rating'
    its ratings are non-increasing (a null rating after every number), and
    with any other tag, or none, the matching products are paged in natural
    order.  No tag makes the search raise. *)
Theorem sort_modes
        (engine : Engine)
        (f : FilterRequest.t) (db : Database) :
  accepted engine f ->
  exists r sorted,
    search_products engine f (Some db) = (Ok r, Some db)
    /\ Permutation (matching engine db f) sorted
    /\ SearchResponse.items r = map serialise (page_of f sorted)
    /\ (FilterRequest.sort f = Some "price_asc" ->
        StronglySorted (fun a b => price_le (item_body a) (item_body b))
                       (SearchResponse.items r))
    /\ (FilterRequest.sort f = Some "price_desc" ->
        StronglySorted (fun a b => price_le (item_body b) (item_body a))
                       (SearchResponse.items r))
    /\ (FilterRequest.sort f = Some "rating" ->
        StronglySorted (fun a b => rating_le (item_body b) (item_body a))
                       (SearchResponse.items r))
    /\ (~ recognised (FilterRequest.sort f) -> sorted = matching engine db f).
Proof.
  intro Ha. exists (search_response engine db f).
  exists (apply_sort (build_sort_spec f) (matching engine db f)).
  split; [now apply search_products_ok|].
  split; [apply apply_sort_perm|]. split; [reflexivity|].
  split; [|split; [|split]].
  - intro E. simpl. unfold build_sort_spec. rewrite E. simpl.
    apply (sorted_page engine f db ("price", 1)
             (fun a b => price_le a b)).
    intros a b (p & Ea & _) (q & Eb & _). unfold doc_leb, sort_key. simpl.
    rewrite Ea, Eb. simpl. apply Qle_bool_iff.
  - intro E. simpl. unfold build_sort_spec. rewrite E. simpl.
    apply (sorted_page engine f db ("price", -1)
             (fun a b => price_le b a)).
    intros a b (p & Ea & _) (q & Eb & _). unfold doc_leb, sort_key. simpl.
    rewrite Ea, Eb. simpl. apply Qle_bool_iff.
  - intro E. simpl. unfold build_sort_spec. rewrite E. simpl.
    apply (sorted_page engine f db ("rating", -1)
             (fun a b => rating_le b a)).
    intros a b (p & Ea & _) (q & Eb & _). unfold doc_leb, sort_key. simpl.
    rewrite Ea, Eb. simpl. apply key_leb_spec.
  - intro H. now rewrite (build_sort_spec_unrecognised f H).
Qed.

Lemma sort_modes_witness :
  accepted no_pcre (with_sort "price_asc" no_filter)
  /\ StronglySorted (fun a b => price_le (item_body a) (item_body b))
       (SearchResponse.items
          (search_response no_pcre sample_db (with_sort "price_asc" no_filter))).
Proof.
  split; [reflexivity|].
  destruct (@sort_modes no_pcre (with_sort "price_asc" no_filter) sample_db eq_refl)
    as (r & sorted & H1 & _ & _ & H4 & _).
  injection H1 as <-. apply H4. reflexivity.
Defined.

Example sorted_by_price_titles :
  map (fun it => match item_body it with
                 | product_model p => Product.title p
                 | order_model _ => ""
                 end)
      (SearchResponse.items
         (search_response no_pcre sample_db (with_sort "price_asc" no_filter)))
  = ["Cotton Brief"; "Lace Bra"].
Proof. reflexivity. Qed.

Example unknown_sort_tag_is_natural_order :
  search_products no_pcre (with_sort "newest" no_filter) (Some sample_db)
  = (Ok (search_response no_pcre sample_db no_filter), Some sample_db).
Proof. reflexivity. Qed.

(** ** Grouping and counting *)

Lemma count_of_bump (key k : string) (groups : list (string * nat)) :
  count_of k (bump key groups) =
    (count_of k groups + if String.eqb key k then 1 else 0)%nat.
Proof.
  induction groups as [|[k' n] rest IH]; simpl.
  - rewrite (String.eqb_sym k key). destruct (String.eqb key k); reflexivity.
  - destruct (String.eqb key k') eqn:E; simpl.
    + apply String.eqb_eq in E. subst k'.
      rewrite (String.eqb_sym k key).
      destruct (String.eqb key k); lia.
    + destruct (String.eqb k k') eqn:E'; [|exact IH].
      apply String.eqb_eq in E'. subst k'. rewrite E. lia.
Qed.

Lemma In_fst_bump (key k : string) (groups : list (string * nat)) :
  In k (map fst (bump key groups)) <-> k = key \/ In k (map fst groups).
Proof.
  induction groups as [|[k' n] rest IH]; simpl.
  - intuition.
  - destruct (String.eqb key k') eqn:E; simpl.
    + apply String.eqb_eq in E. subst k'. intuition.
    + rewrite IH. intuition.
Qed.

Lemma NoDup_bump (key : string) (groups : list (string * nat)) :
  NoDup (map fst groups) -> NoDup (map fst (bump key groups)).
Proof.
  induction groups as [|[k n] rest IH]; simpl; intro H.
  - constructor; [intros []|constructor].
  - inversion H as [|? ? Hnin Hnd]; subst.
    destruct (String.eqb key k) eqn:E; simpl.
    + now constructor.
    + constructor; [|now apply IH].
      rewrite In_fst_bump. intros [->|Hin]; [|contradiction].
      now rewrite String.eqb_refl in E.
Qed.

Lemma positive_bump (key : string) (groups : list (string * nat)) :
  Forall (fun g => (0 < snd g)%nat) groups ->
  Forall (fun g => (0 < snd g)%nat) (bump key groups).
Proof.
  induction groups as [|[k n] rest IH]; simpl; intro H.
  - repeat constructor.
  - inversion H as [|? ? Hn Hrest]; subst.
    destruct (String.eqb key k); constructor; simpl in *; auto; lia.
Qed.

Lemma counts_step (seen : list string) (key : string) groups :
  counts seen groups -> counts (seen ++ [key]) (bump key groups).
Proof.
  intros (Hnd & Hpos & Hc). split; [now apply NoDup_bump|].
  split; [now apply positive_bump|].
  intro k. rewrite count_of_bump, Hc, count_occ_app. simpl.
  destruct (string_dec key k) as [->|Hne].
  - now rewrite String.eqb_refl.
  - destruct (String.eqb key k) eqn:E; [|reflexivity].
    apply String.eqb_eq in E. contradiction.
Qed.

Lemma counts_fold (keys seen : list string) groups :
  counts seen groups ->
  counts (seen ++ keys) (fold_left (fun groups key => bump key groups) keys groups).
Proof.
  revert seen groups. induction keys as [|key keys IH]; intros seen groups H; simpl.
  - now rewrite app_nil_r.
  - replace (seen ++ key :: keys) with ((seen ++ [key]) ++ keys)
      by (now rewrite <- app_assoc).
    apply IH. now apply counts_step.
Qed.

Lemma group_count_counts (keys : list string) : counts keys (group_count keys).
Proof.
  unfold group_count. apply (counts_fold keys (seen := [])).
  split; [constructor|]. split; [constructor|]. reflexivity.
Qed.

Lemma count_of_In (k : string) (n : nat) (groups : list (string * nat)) :
  NoDup (map fst groups) ->
  In (k, n) groups -> count_of k groups = n.
Proof.
  induction groups as [|[k' n'] rest IH]; simpl; intros Hnd H; [contradiction|].
  destruct H as [H|H].
  - injection H as -> ->. now rewrite String.eqb_refl.
  - inversion Hnd as [|? ? Hnin Hnd']; subst.
    destruct (String.eqb k k') eqn:E.
    + apply String.eqb_eq in E. subst k'. exfalso. apply Hnin.
      apply in_map_iff. now exists (k, n).
    + now apply IH.
Qed.

Lemma In_count_of (k : string) (groups : list (string * nat)) :
  (0 < count_of k groups)%nat -> In (k, count_of k groups) groups.
Proof.
  induction groups as [|[k' n'] rest IH]; simpl; intro H; [lia|].
  destruct (String.eqb k k') eqn:E.
  - apply String.eqb_eq in E. subst k'. now left.
  - right. now apply IH.
Qed.

Lemma group_count_spec (keys : list string) (k : string) (n : nat) :
  In (k, n) (group_count keys) <->
  n = count_occ string_dec keys k /\ (0 < n)%nat.
Proof.
  destruct (group_count_counts keys) as (Hnd & Hpos & Hc). split.
  - intro H. pose proof (@count_of_In k n _ Hnd H) as E. rewrite Hc in E.
    split; [now symmetry|].
    rewrite Forall_forall in Hpos. apply (Hpos (k, n) H).
  - intros [-> Hn]. rewrite <- Hc in *. now apply In_count_of.
Qed.

(** ** Facets *)

Lemma StronglySorted_filter {A} (R : A -> A -> Prop) (keep : A -> bool) (l : list A) :
  StronglySorted R l -> StronglySorted R (filter keep l).
Proof.
  induction 1 as [|x l Hs IH Hall]; simpl; [constructor|].
  destruct (keep x); [|exact IH]. constructor; [exact IH|].
  rewrite Forall_forall in *. intros y Hy. apply filter_In in Hy. now apply Hall.
Qed.

Lemma NoDup_filter_fst (keep : string * nat -> bool) (l : list (string * nat)) :
  NoDup (map fst l) -> NoDup (map fst (filter keep l)).
Proof.
  induction l as [|x l IH]; simpl; intro H; [constructor|].
  inversion H as [|? ? Hnin Hnd]; subst.
  destruct (keep x); simpl; [|now apply IH].
  constructor; [|now apply IH].
  intro Hin. apply Hnin. apply in_map_iff in Hin. destruct Hin as (y & E & Hy).
  apply filter_In in Hy. apply in_map_iff. exists y. tauto.
Qed.

Lemma count_desc_total (a b : string * nat) :
  count_desc a b = true \/ count_desc b a = true.
Proof. unfold count_desc. rewrite !Nat.leb_le. lia. Qed.

Lemma count_desc_trans (a b c : string * nat) :
  count_desc a b = true -> count_desc b c = true -> count_desc a c = true.
Proof. unfold count_desc. rewrite !Nat.leb_le. lia. Qed.

Lemma truthy_str_spec (s : string) : truthy_str s = true <-> s <> "".
Proof. destruct s; simpl; split; congruence. Qed.

Lemma facet_list_spec (keys : list string) :
  facets_of keys (facet_list (isort count_desc (group_count keys))).
Proof.
  pose proof (isort_perm count_desc (group_count keys)) as Hperm.
  destruct (group_count_counts keys) as (Hnd & _ & _).
  unfold facets_of, facet_list. split; [|split].
  - rewrite map_map. simpl.
    apply (NoDup_filter_fst (fun c => truthy_str (fst c))).
    eapply Permutation_NoDup; [apply Permutation_map, Hperm|exact Hnd].
  - intros v n. rewrite in_map_iff. split.
    + intros ([k m] & E & Hin). simpl in E. injection E as -> ->.
      apply filter_In in Hin. destruct Hin as [Hin Ht]. simpl in Ht.
      apply isort_In, group_count_spec in Hin.
      split; [now apply truthy_str_spec|exact Hin].
    + intros (Hv & Hn). exists (v, n). split; [reflexivity|].
      apply filter_In. split; [|now apply truthy_str_spec].
      apply isort_In. now apply group_count_spec.
  - apply StronglySorted_map. simpl. apply StronglySorted_filter.
    apply StronglySorted_impl_In with (R := fun a b => count_desc a b = true).
    + intros a b _ _ H. unfold count_desc in H. now apply Nat.leb_le.
    + apply isort_sorted; [apply count_desc_total|apply count_desc_trans].
Qed.

(** C2. The color and size facets are computed over all the products that
    match the filter, whatever the page: every non-empty color (size) of a
    variant of a matching product is listed once, with the number of variants
    of matching products that carry it, by descending count; the empty value
    is left out. *)
Theorem facets_cover_all_matches
        (engine : Engine)
        (f : FilterRequest.t) (db : Database) :
  accepted engine f ->
  exists r,
    search_products engine f (Some db) = (Ok r, Some db)
    /\ facets_of (map ProductVariant.color (unwind (matching engine db f)))
                 (colors (SearchResponse.facets r))
    /\ facets_of (map ProductVariant.size (unwind (matching engine db f)))
                 (sizes (SearchResponse.facets r))
    /\ (forall page limit,
          SearchResponse.facets (search_response engine db (with_paging page limit f))
          = SearchResponse.facets r).
Proof.
  intro Ha. exists (search_response engine db f).
  split; [now apply search_products_ok|].
  split; [apply facet_list_spec|]. split; [apply facet_list_spec|].
  intros page limit. reflexivity.
Qed.

Lemma facets_cover_all_matches_witness :
  accepted no_pcre (with_paging 1 1 no_filter)
  /\ facets_of ["Black"; "Black"; "Red"; "White"]
       (colors (SearchResponse.facets
                  (search_response no_pcre sample_db (with_paging 1 1 no_filter)))).
Proof.
  split; [reflexivity|].
  destruct (@facets_cover_all_matches no_pcre (with_paging 1 1 no_filter) sample_db eq_refl)
    as (r & H1 & H2 & _).
  injection H1 as <-. exact H2.
Defined.

Example sample_color_facets :
  colors (SearchResponse.facets
            (search_response no_pcre sample_db (with_paging 1 1 no_filter)))
  = [ {| value := "Black"; count := 2 |};
      {| value := "Red"; count := 1 |};
      {| value := "White"; count := 1 |} ].
Proof. reflexivity. Qed.

(** ** The handlers without a database *)

(** C3, as the code has it.  When the database handle is absent, seed,
    search, get-by-id and create-order raise an HTTP error of status 500 with
    the detail "Database not configured", and do nothing else. *)
Theorem unconfigured_database
        (engine : Engine)
        (insert_raises : Database -> string -> Model -> bool)
        (products : list Product.t) (filters : FilterRequest.t)
        (product_id : string) (order : Order.t) :
  seed_products insert_raises products None = (Raise not_configured, None)
  /\ search_products engine filters None = (Raise not_configured, None)
  /\ get_product product_id None = (Raise not_configured, None)
  /\ create_order insert_raises order None = (Raise not_configured, None).
Proof. repeat split. Qed.

(** C3, as the specification states it, fails: the error raised without a
    database has status 500, not the service-unavailable status 503. *)
Lemma unconfigured_is_not_service_unavailable :
  ~ (forall products,
       exists e, fst (seed_products never_raises products None) = Raise e
                 /\ is_service_unavailable e = true).
Proof.
  intro H. destruct (H []) as (e & He & Hs).
  simpl in He. injection He as <-. discriminate.
Qed.

(** ** Identifiers: printing and parsing *)

Lemma hex_pair_roundtrip (b : byte) :
  is_space (hex_digit (Byte.to_N b / 16)) = false
  /\ match hex_value (hex_digit (Byte.to_N b / 16)),
           hex_value (hex_digit (Byte.to_N b mod 16)) with
     | Some h, Some l => Byte.of_N (16 * h + l) = Some b
     | _, _ => False
     end.
Proof. destruct b; vm_compute; split; reflexivity. Qed.

Lemma fromhex_hexlify (bs : list byte) : fromhex (chars (hexlify bs)) = Some bs.
Proof.
  induction bs as [|b bs IH]; [reflexivity|].
  cbn [hexlify chars list_ascii_of_string fromhex].
  fold (chars (hexlify bs)). rewrite IH.
  destruct (hex_pair_roundtrip b) as [Hs H]. rewrite Hs.
  destruct (hex_value (hex_digit (Byte.to_N b / 16))) as [h|]; [|contradiction].
  destruct (hex_value (hex_digit (Byte.to_N b mod 16))) as [l|]; [|contradiction].
  now rewrite H.
Qed.

Lemma space_not_continuation (c : ascii) :
  is_space c = true -> is_continuation c = false.
Proof. destruct c as [[] [] [] [] [] [] [] []]; vm_compute; congruence. Qed.

Lemma hex_not_continuation (c : ascii) (h : N) :
  hex_value c = Some h -> is_continuation c = false.
Proof. destruct c as [[] [] [] [] [] [] [] []]; vm_compute; congruence. Qed.

(** What [fromhex] reads holds ASCII characters only. *)
Lemma fromhex_ascii (n : nat) (cs : list ascii) (bs : list byte) :
  (List.length cs <= n)%nat ->
  fromhex cs = Some bs ->
  Forall (fun c => is_continuation c = false) cs.
Proof.
  revert cs bs. induction n as [|n IH]; intros cs bs Hn H.
  - destruct cs; [constructor|simpl in Hn; lia].
  - destruct cs as [|c rest]; [constructor|]. simpl in Hn, H.
    destruct (is_space c) eqn:Es.
    + constructor; [now apply space_not_continuation|].
      apply (IH rest bs); [lia|exact H].
    + destruct rest as [|lo rest']; [discriminate|].
      destruct (hex_value c) as [h|] eqn:Eh; [|discriminate].
      destruct (hex_value lo) as [l|] eqn:El; [|discriminate].
      destruct (fromhex rest') as [bs'|] eqn:Er; [|discriminate].
      constructor; [now apply (hex_not_continuation c Eh)|].
      constructor; [now apply (hex_not_continuation lo El)|].
      apply (IH rest' bs'); [simpl in Hn; lia|exact Er].
Qed.

Lemma group_chars_ascii (cs : list ascii) :
  Forall (fun c => is_continuation c = false) cs ->
  group_chars cs = map (fun c => [c]) cs.
Proof.
  induction 1 as [|c rest Hc Hrest IH]; [reflexivity|].
  cbn [group_chars map]. rewrite IH.
  destruct Hrest as [|r rest' Hr _]; [reflexivity|]. now rewrite Hr.
Qed.

(** A string that [fromhex] reads has as many characters as bytes. *)
Lemma len_fromhex (s : string) (bs : list byte) :
  fromhex (chars s) = Some bs -> len s = String.length s.
Proof.
  intro H. unfold len, characters.
  rewrite (group_chars_ascii (fromhex_ascii (chars s) (le_n _) H)), length_map.
  unfold chars. clear H. induction s as [|c s IH]; simpl; [reflexivity|now rewrite IH].
Qed.

Lemma ObjectId_length (s : string) (oid : ObjectId_t) :
  ObjectId s = Some oid -> String.length s = 24%nat.
Proof.
  unfold ObjectId. destruct (len s =? 24)%nat eqn:E; [|discriminate].
  intro H. rewrite <- (len_fromhex s H). now apply Nat.eqb_eq.
Qed.

Lemma length_hexlify (bs : list byte) :
  String.length (hexlify bs) = (2 * List.length bs)%nat.
Proof. induction bs as [|b bs IH]; simpl; [reflexivity|]. rewrite IH. lia. Qed.

Lemma ObjectId_str (oid : ObjectId_t) :
  List.length oid = 12%nat -> ObjectId (str oid) = Some oid.
Proof.
  intro H. unfold ObjectId, str.
  rewrite (len_fromhex (hexlify oid) (fromhex_hexlify oid)), length_hexlify, H.
  simpl. apply fromhex_hexlify.
Qed.

(** ** Lookup by identifier *)

Lemma oid_eqb_eq (a b : ObjectId_t) : oid_eqb a b = true <-> a = b.
Proof.
  unfold oid_eqb. destruct (list_eq_dec Byte.byte_eq_dec a b); split; congruence.
Qed.





Example ObjectId_skips_whitespace :
  option_map str (ObjectId "00 00 00 00 00 00 00 00 ") = Some "0000000000000000".
Proof. reflexivity. Qed.

Example ObjectId_refuses_split_digits :
  ObjectId "0 000000000000000000000 " = None.
Proof. reflexivity. Qed.

Example get_missing_product :
  get_product "507f1f77bcf86cd799439011" (Some sample_db)
  = (Raise (HTTPException 404 "Not found"), Some sample_db).
Proof. reflexivity. Qed.

Example get_existing_product :
  get_product "000000000000000000000001" (Some sample_db)
  = (Ok {| item_id := "000000000000000000000001";
           item_body := product_model cotton_brief |}, Some sample_db).
Proof. reflexivity. Qed.

Example ObjectId_prints_lower_case :
  option_map str (ObjectId "507F1F77BCF86CD799439011") = Some "507f1f77bcf86cd799439011".
Proof. reflexivity. Qed.

(** ** Seeding *)

Section SeedFacts.
Variable insert_raises : Database -> string -> Model -> bool.

Lemma create_document_ok (d : Database) (prod : Product.t) :
  insert_raises d "product" (product_model prod) = false ->
  create_document insert_raises "product" (product_model prod) (Some d)
  = (Ok (str (oid_of_counter (oid_counter d))), Some (store_product d prod)).
Proof. intro H. unfold create_document. now rewrite H. Qed.

Lemma seed_loop_ok (products : list Product.t) (d : Database) (acc : list string) :
  all_inserts_succeed insert_raises d products = true ->
  seed_loop insert_raises products acc (Some d)
  = (Ok (acc ++ map (fun doc => str (_id doc)) (stored_docs d products)),
     Some (fold_left store_product products d)).
Proof.
  revert d acc. induction products as [|prod rest IH]; intros d acc H; simpl.
  - now rewrite app_nil_r.
  - simpl in H. apply andb_true_iff in H. destruct H as [H1 H2].
    apply negb_true_iff in H1.
    unfold bind at 1. rewrite (create_document_ok H1).
    rewrite (IH _ _ H2). now rewrite <- app_assoc.
Qed.

Lemma seed_loop_fail (pre rest : list Product.t) (bad : Product.t)
      (d : Database) (acc : list string) :
  all_inserts_succeed insert_raises d pre = true ->
  insert_raises (fold_left store_product pre d) "product" (product_model bad) = true ->
  seed_loop insert_raises (pre ++ bad :: rest) acc (Some d)
  = (Raise (PyMongoError "insert failed"), Some (fold_left store_product pre d)).
Proof.
  revert d acc. induction pre as [|prod pre IH]; intros d acc H Hbad; simpl in *.
  - unfold bind, create_document. now rewrite Hbad.
  - apply andb_true_iff in H. destruct H as [H1 H2]. apply negb_true_iff in H1.
    unfold bind at 1. rewrite (create_document_ok H1). now apply IH.
Qed.

End SeedFacts.

Lemma getitem_store_product (d : Database) (prod : Product.t) :
  getitem (store_product d prod) "product"
  = getitem d "product"
      ++ [{| _id := oid_of_counter (oid_counter d); body := product_model prod |}].
Proof. reflexivity. Qed.

Lemma getitem_seeded (products : list Product.t) (d : Database) :
  getitem (fold_left store_product products d) "product"
  = getitem d "product" ++ stored_docs d products.
Proof.
  revert d. induction products as [|prod rest IH]; intro d; simpl.
  - now rewrite app_nil_r.
  - rewrite IH, getitem_store_product. now rewrite <- app_assoc.
Qed.

Lemma body_stored_docs (products : list Product.t) (d : Database) :
  map body (stored_docs d products) = map product_model products.
Proof.
  revert d. induction products as [|prod rest IH]; intro d; simpl; [reflexivity|].
  now rewrite IH.
Qed.

Lemma length_stored_docs (products : list Product.t) (d : Database) :
  List.length (stored_docs d products) = List.length products.
Proof.
  revert d. induction products as [|prod rest IH]; intro d; simpl; [reflexivity|].
  now rewrite IH.
Qed.

(** C5, as the code has it.  When every insert succeeds, seeding [n] products
    answers with the count [n] and the identifiers of the [n] new documents in
    submission order.  When an insert fails, the handler stops there with the
    error and reports no identifier; the products before the failing one stay
    in the collection, and the ones after it are not inserted. *)
Theorem seed_products_outcomes
        (insert_raises : Database -> string -> Model -> bool) (d : Database) :
  (forall products,
      all_inserts_succeed insert_raises d products = true ->
      exists d',
        seed_products insert_raises products (Some d)
        = (Ok {| inserted := List.length products;
                 ids := map (fun doc => str (_id doc)) (stored_docs d products) |},
           Some d')
        /\ getitem d' "product" = getitem d "product" ++ stored_docs d products
        /\ map body (stored_docs d products) = map product_model products)
  /\ (forall pre bad rest,
      all_inserts_succeed insert_raises d pre = true ->
      insert_raises (fold_left store_product pre d) "product" (product_model bad) = true ->
      exists e d',
        seed_products insert_raises (pre ++ bad :: rest) (Some d) = (Raise e, Some d')
        /\ getitem d' "product" = getitem d "product" ++ stored_docs d pre).
Proof.
  split.
  - intros products H. exists (fold_left store_product products d).
    split; [|split].
    + unfold seed_products, bind at 1, get_db. unfold bind.
      rewrite (@seed_loop_ok insert_raises products d [] H). simpl. unfold ret.
      now rewrite length_map, length_stored_docs.
    + apply getitem_seeded.
    + apply body_stored_docs.
  - intros pre bad rest H Hbad.
    exists (PyMongoError "insert failed"), (fold_left store_product pre d).
    split; [|apply getitem_seeded].
    unfold seed_products, bind at 1, get_db. unfold bind.
    now rewrite (@seed_loop_fail insert_raises pre rest bad d [] H Hbad).
Qed.

Lemma seed_products_outcomes_witness :
  all_inserts_succeed (full_at 1) empty_db [lace_bra] = true
  /\ full_at 1 (fold_left store_product [lace_bra] empty_db) "product"
       (product_model cotton_brief) = true
  /\ exists e d',
       seed_products (full_at 1) ([lace_bra] ++ cotton_brief :: [retired_slip])
                     (Some empty_db) = (Raise e, Some d')
       /\ getitem d' "product" = getitem empty_db "product" ++ stored_docs empty_db [lace_bra].
Proof.
  split; [reflexivity|]. split; [reflexivity|].
  destruct (seed_products_outcomes (full_at 1) empty_db) as [_ H].
  apply (H [lace_bra] cotton_brief [retired_slip]); reflexivity.
Defined.

Example seed_two_products :
  fst (seed_products never_raises [lace_bra; cotton_brief] (Some empty_db))
  = Ok {| inserted := 2;
          ids := ["000000000000000000000000"; "000000000000000000000001"] |}.
Proof. reflexivity. Qed.

(** C5, as the specification states it, fails: when the second insert of a
    batch raises, the first product is already in the collection, so the
    database is not as it was before the call. *)
Lemma failed_seed_keeps_earlier_inserts :
  ~ (forall (insert_raises : Database -> string -> Model -> bool)
            (products : list Product.t) (d : Database) (e : exn) (w' : World),
       seed_products insert_raises products (Some d) = (Raise e, w') ->
       w' = Some d).
Proof.
  intro H.
  specialize (H (full_at 1) [lace_bra; cotton_brief] empty_db
                (PyMongoError "insert failed")
                (Some (store_product empty_db lace_bra)) eq_refl).
  apply (f_equal (option_map (fun d => List.length (getitem d "product")))) in H.
  discriminate H.
Qed.

(* ------------------------------------------------------------------------- *)
(** * Further properties of the handlers *)

(** ** When the search succeeds *)

Section OutcomeFacts.
Variable engine : Engine.

Lemma query_ok_set_if {A} (truthy : A -> bool) (o : option A) entry q :
  query_ok engine (set_if truthy o entry q) =
    query_ok engine q
    && match o with
       | Some a => if truthy a then entry_ok engine (entry a) else true
       | None => true
       end.
Proof.
  unfold set_if. destruct o as [a|]; [destruct (truthy a)|].
  - rewrite query_ok_app. simpl. now rewrite andb_true_r.
  - now rewrite andb_true_r.
  - now rewrite andb_true_r.
Qed.

Lemma query_ok_build_query (f : FilterRequest.t) :
  query_ok engine (build_query f) = pattern_ok engine f.
Proof.
  unfold build_query, pattern_ok.
  destruct (truthy_list (build_price_filter f)).
  - rewrite query_ok_app, !query_ok_set_if. simpl.
    destruct (FilterRequest.category f) as [c|]; [destruct (truthy_str c)|];
    destruct (FilterRequest.subcategory f) as [sc|]; try destruct (truthy_str sc);
    destruct (FilterRequest.colors f) as [cs|]; try destruct (truthy_list cs);
    destruct (FilterRequest.sizes f) as [ss|]; try destruct (truthy_list ss);
    destruct (FilterRequest.tags f) as [ts|]; try destruct (truthy_list ts);
    destruct (FilterRequest.search f) as [s|]; try destruct (truthy_str s);
    simpl; try reflexivity;
    unfold entry_ok, condition_ok; simpl;
    destruct (regex_compile engine s "i"); reflexivity.
  - rewrite !query_ok_set_if. simpl.
    destruct (FilterRequest.category f) as [c|]; [destruct (truthy_str c)|];
    destruct (FilterRequest.subcategory f) as [sc|]; try destruct (truthy_str sc);
    destruct (FilterRequest.colors f) as [cs|]; try destruct (truthy_list cs);
    destruct (FilterRequest.sizes f) as [ss|]; try destruct (truthy_list ss);
    destruct (FilterRequest.tags f) as [ts|]; try destruct (truthy_list ts);
    destruct (FilterRequest.search f) as [s|]; try destruct (truthy_str s);
    simpl; try reflexivity;
    unfold entry_ok, condition_ok; simpl;
    destruct (regex_compile engine s "i"); reflexivity.
Qed.

End OutcomeFacts.

(** X1. On a configured database the search never writes: the handle is left
    as it was.  It succeeds exactly when the server accepts the search text,
    which is always the case when the text is absent or empty; otherwise it
    raises the server's failure and returns nothing. *)
Theorem search_outcome
        (engine : Engine)
        (f : FilterRequest.t) (db : Database) :
  snd (search_products engine f (Some db)) = Some db
  /\ (pattern_ok engine f = true ->
      fst (search_products engine f (Some db))
      = Ok (search_response engine db f))
  /\ (pattern_ok engine f = false ->
      exists msg, fst (search_products engine f (Some db))
                  = Raise (OperationFailure msg))
  /\ (truthy_env (FilterRequest.search f) = false -> pattern_ok engine f = true).
Proof.
  rewrite search_products_run, query_ok_build_query.
  split; [now destruct (pattern_ok engine f)|].
  split; [now intros ->|]. split.
  - intros ->. now eexists.
  - unfold pattern_ok, truthy_env. destruct (FilterRequest.search f) as [s|]; [|reflexivity].
    now intros ->.
Qed.

Lemma search_outcome_witness :
  pattern_ok no_pcre (with_search "(" no_filter) = false
  /\ exists msg, fst (search_products no_pcre (with_search "(" no_filter) (Some sample_db))
                 = Raise (OperationFailure msg).
Proof.
  split; [reflexivity|].
  destruct (search_outcome no_pcre (with_search "(" no_filter) sample_db)
    as (_ & _ & H & _).
  apply H. reflexivity.
Defined.

(** ** Totals and pages *)

Lemma length_apply_limit_le (n : Z) (l : list Document) :
  (List.length (apply_limit n l) <= List.length l)%nat.
Proof.
  unfold apply_limit. destruct (n =? 0); [lia|].
  rewrite length_firstn. lia.
Qed.

Lemma length_page_of_le (f : FilterRequest.t) (l : list Document) :
  (List.length (page_of f l) <= List.length l)%nat.
Proof.
  unfold page_of.
  pose proof (length_apply_limit_le (FilterRequest.limit f)
                (skipn (Z.to_nat (skip_of f)) l)) as H.
  rewrite length_skipn in H. lia.
Qed.

Lemma length_apply_sort spec (l : list Document) :
  List.length (apply_sort spec l) = List.length l.
Proof. symmetry. apply Permutation_length, apply_sort_perm. Qed.

(** X2. The total of a search counts every matching product, and the total and
    the facets are the same for every page, limit and sort tag; a page never
    holds more items than the total. *)
Theorem total_and_facets_ignore_paging
        (engine : Engine)
        (f : FilterRequest.t) (db : Database) (page limit : Z) (tag : string) :
  accepted engine f ->
  exists r r',
    search_products engine f (Some db) = (Ok r, Some db)
    /\ search_products engine (with_sort tag (with_paging page limit f)) (Some db)
       = (Ok r', Some db)
    /\ SearchResponse.total r = List.length (matching engine db f)
    /\ SearchResponse.total r' = SearchResponse.total r
    /\ SearchResponse.facets r' = SearchResponse.facets r
    /\ (List.length (SearchResponse.items r) <= SearchResponse.total r)%nat.
Proof.
  intro Ha. exists (search_response engine db f).
  exists (search_response engine db (with_sort tag (with_paging page limit f))).
  split; [now apply search_products_ok|].
  split; [apply search_products_ok; exact Ha|].
  split; [reflexivity|]. split; [reflexivity|]. split; [reflexivity|].
  simpl. rewrite length_map.
  pose proof (length_page_of_le f (apply_sort (build_sort_spec f) (matching engine db f))) as H.
  now rewrite length_apply_sort in H.
Qed.

Lemma total_and_facets_ignore_paging_witness :
  accepted no_pcre no_filter
  /\ SearchResponse.total
       (search_response no_pcre sample_db (with_sort "rating" (with_paging 7 1 no_filter)))
     = SearchResponse.total (search_response no_pcre sample_db no_filter).
Proof.
  split; [reflexivity|].
  destruct (@total_and_facets_ignore_paging no_pcre no_filter sample_db 7 1 "rating" eq_refl)
    as (r & r' & H1 & H2 & _ & H4 & _).
  injection H1 as <-. injection H2 as <-. exact H4.
Defined.

(** X6. A page that starts at or after the end of the result is empty, while
    the total still counts every match. *)
Theorem page_past_the_end_is_empty
        (engine : Engine)
        (f : FilterRequest.t) (db : Database) :
  accepted engine f ->
  Z.of_nat (List.length (matching engine db f))
    <= (FilterRequest.page f - 1) * FilterRequest.limit f ->
  exists r,
    search_products engine f (Some db) = (Ok r, Some db)
    /\ SearchResponse.items r = []
    /\ SearchResponse.total r = List.length (matching engine db f).
Proof.
  intros Ha Hskip. exists (search_response engine db f).
  split; [now apply search_products_ok|]. split; [|reflexivity].
  simpl. unfold page_of, skip_of.
  rewrite skipn_all2.
  - unfold apply_limit. destruct (FilterRequest.limit f =? 0); [reflexivity|].
    now rewrite firstn_nil.
  - rewrite length_apply_sort. lia.
Qed.

Lemma page_past_the_end_is_empty_witness :
  accepted no_pcre (with_paging 3 1 no_filter)
  /\ Z.of_nat (List.length (matching no_pcre sample_db (with_paging 3 1 no_filter)))
     <= (3 - 1) * 1
  /\ exists r,
       search_products no_pcre (with_paging 3 1 no_filter) (Some sample_db)
       = (Ok r, Some sample_db)
       /\ SearchResponse.items r = []
       /\ SearchResponse.total r = 2%nat.
Proof.
  split; [reflexivity|]. split; [vm_compute; discriminate|].
  destruct (@page_past_the_end_is_empty no_pcre (with_paging 3 1 no_filter) sample_db
              eq_refl ltac:(vm_compute; discriminate)) as (r & H1 & H2 & H3).
  exists r. split; [exact H1|]. split; [exact H2|exact H3].
Defined.

(** X7. Nothing is skipped when (page - 1) * limit is not positive: a page
    number of 1 or less with a non-negative limit, and any page number from 1
    on with a negative limit, all start at the first record. *)
Theorem nothing_skipped_when_offset_not_positive
        (engine : Engine)
        (f : FilterRequest.t) (db : Database) :
  accepted engine f ->
  (FilterRequest.page f - 1) * FilterRequest.limit f <= 0 ->
  exists r,
    search_products engine f (Some db) = (Ok r, Some db)
    /\ SearchResponse.items r =
         map serialise
           (apply_limit (FilterRequest.limit f)
              (apply_sort (build_sort_spec f) (matching engine db f))).
Proof.
  intros Ha H. exists (search_response engine db f).
  split; [now apply search_products_ok|].
  simpl. unfold page_of, skip_of. now rewrite Z.max_l by lia.
Qed.

Lemma nothing_skipped_when_offset_not_positive_witness :
  accepted no_pcre (with_paging (-4) 1 no_filter)
  /\ (-4 - 1) * 1 <= 0
  /\ exists r,
       search_products no_pcre (with_paging (-4) 1 no_filter) (Some sample_db)
       = (Ok r, Some sample_db)
       /\ SearchResponse.items r =
            map serialise
              (apply_limit 1
                 (apply_sort (build_sort_spec (with_paging (-4) 1 no_filter))
                    (matching no_pcre sample_db (with_paging (-4) 1 no_filter)))).
Proof.
  split; [reflexivity|]. split; [discriminate|].
  apply (@nothing_skipped_when_offset_not_positive no_pcre
           (with_paging (-4) 1 no_filter) sample_db eq_refl).
  discriminate.
Defined.

Example page_minus_four_is_the_first_page :
  map item_title
      (SearchResponse.items
         (search_response no_pcre sample_db (with_paging (-4) 1 no_filter)))
  = ["Lace Bra"].
Proof. reflexivity. Qed.

(** ** Price, category and the unfiltered request *)

Section ClauseFacts.
Variable engine : Engine.

Lemma price_clause_product (f : FilterRequest.t) (d : Document) (p : Product.t) :
  body d = product_model p ->
  price_clause engine f d = true <-> in_price_range f p.
Proof.
  intro E. unfold price_clause, build_price_filter, in_price_range,
    entry_matches, field_matches, values_at. rewrite E.
  destruct (FilterRequest.price_min f) as [lo|], (FilterRequest.price_max f) as [hi|];
    simpl; rewrite ?orb_false_r, ?andb_true_r, ?andb_true_iff, ?Qle_bool_iff.
  - split.
    + intros [H1 H2]. split; intros x [= <-]; assumption.
    + intros [H1 H2]. split; [now apply H1|now apply H2].
  - split.
    + intro H. split; [intros x [= <-]; assumption|discriminate].
    + intros [H1 _]. now apply H1.
  - split.
    + intro H. split; [discriminate|intros x [= <-]; assumption].
    + intros [_ H2]. now apply H2.
  - split; [intros _; split; discriminate|reflexivity].
Qed.

Lemma matches_price (f : FilterRequest.t) (d : Document) :
  matches engine (build_query f) d = true ->
  exists p, body d = product_model p /\ in_price_range f p.
Proof.
  intro H. destruct (matches_active _ _ _ H) as (p & E & _).
  exists p. split; [exact E|]. apply (price_clause_product f d E).
  rewrite matches_build_query, !andb_true_iff in H. tauto.
Qed.

Lemma equals_clause_spec (path c : string) (d : Document) (get : Product.t -> scalar) :
  (forall p, body d = product_model p -> values_at d path = [get p]) ->
  (forall o, body d = order_model o -> values_at d path = [SNull]) ->
  entry_matches engine d (path, Cond (Equals (SStr c))) = true <->
  exists p, body d = product_model p /\ get p = SStr c.
Proof.
  intros Hp Ho. unfold entry_matches, field_matches. simpl.
  destruct (body d) as [p|o] eqn:E.
  - rewrite (Hp p eq_refl). simpl. rewrite orb_false_r. split.
    + intro H. exists p. split; [reflexivity|].
      destruct (get p) as [|b|s|q]; simpl in H; try discriminate.
      apply String.eqb_eq in H. now subst.
    + intros (p' & [= <-] & ->). simpl. apply String.eqb_refl.
  - rewrite (Ho o eq_refl). simpl. split; [discriminate|].
    intros (p & H & _). discriminate.
Qed.

Lemma category_clause_spec (c : string) (d : Document) :
  entry_matches engine d ("category", Cond (Equals (SStr c))) = true <->
  exists p, body d = product_model p /\ Product.category p = c.
Proof.
  rewrite (equals_clause_spec "category" c d (fun p => SStr (Product.category p))).
  - split; intros (p & E & H); exists p; (split; [exact E|]); congruence.
  - intros p E. unfold values_at. now rewrite E.
  - intros o E. unfold values_at. now rewrite E.
Qed.

Lemma subcategory_clause_spec (c : string) (d : Document) :
  entry_matches engine d ("subcategory", Cond (Equals (SStr c))) = true <->
  exists p, body d = product_model p /\ Product.subcategory p = Some c.
Proof.
  rewrite (equals_clause_spec "subcategory" c d
             (fun p => opt_scalar SStr (Product.subcategory p))).
  - split; intros (p & E & H); exists p; (split; [exact E|]).
    + destruct (Product.subcategory p); simpl in H; congruence.
    + now rewrite H.
  - intros p E. unfold values_at. now rewrite E.
  - intros o E. unfold values_at. now rewrite E.
Qed.

Lemma build_query_unfiltered (f : FilterRequest.t) :
  unfiltered f -> build_query f = [("is_active", Cond (Equals (SBool true)))].
Proof.
  intros (H1 & H2 & H3 & H4 & H5 & H6 & H7 & H8).
  rewrite <- build_query_drop_falsy.
  unfold build_query, build_price_filter, drop_falsy. simpl.
  now rewrite H1, H2, H3, H4, H5, H6, H7, H8.
Qed.

Lemma filter_nil_when_none {A} (keep : A -> bool) (l : list A) :
  (forall x, In x l -> keep x = false) -> filter keep l = [].
Proof.
  induction l as [|x l IH]; intro H; simpl; [reflexivity|].
  rewrite (H x (or_introl eq_refl)). apply IH. intros y Hy. apply H. now right.
Qed.

Lemma filter_length_mono {A} (keep keep' : A -> bool) (l : list A) :
  (forall x, In x l -> keep x = true -> keep' x = true) ->
  (List.length (filter keep l) <= List.length (filter keep' l))%nat.
Proof.
  induction l as [|x l IH]; intro H; simpl; [lia|].
  assert (IH' : (List.length (filter keep l) <= List.length (filter keep' l))%nat).
  { apply IH. intros y Hy. apply H. now right. }
  destruct (keep x) eqn:E.
  - rewrite (H x (or_introl eq_refl) E). simpl. lia.
  - destruct (keep' x); simpl; lia.
Qed.

End ClauseFacts.

(** ** The entries of the query *)

Lemma In_set_if_iff {A} (truthy : A -> bool) (o : option A) entry q
      (e : string * qvalue) :
  In e (set_if truthy o entry q) <->
  In e q \/ exists a, o = Some a /\ truthy a = true /\ e = entry a.
Proof.
  unfold set_if. destruct o as [a|]; [destruct (truthy a) eqn:T|].
  - rewrite in_app_iff. simpl. split.
    + intros [H|[H|[]]]; [now left|right]. now exists a.
    + intros [H|(a' & [= <-] & _ & ->)]; [now left|right; now left].
  - split; [now left|]. intros [H|(a' & [= <-] & T' & _)]; [exact H|congruence].
  - split; [now left|]. intros [H|(a' & E & _)]; [exact H|discriminate].
Qed.

Lemma truthy_list_spec {A} (l : list A) : truthy_list l = true <-> l <> [].
Proof. destruct l; simpl; split; congruence. Qed.

Lemma truthy_price_filter (f : FilterRequest.t) :
  truthy_list (build_price_filter f) = true <->
  FilterRequest.price_min f <> None \/ FilterRequest.price_max f <> None.
Proof.
  unfold build_price_filter.
  destruct (FilterRequest.price_min f), (FilterRequest.price_max f); simpl;
    split; try congruence; try (intros _; (left; congruence) || (right; congruence)).
  intros [H|H]; congruence.
Qed.

Lemma build_price_filter_spec (f : FilterRequest.t) (op : string * Q) :
  In op (build_price_filter f) <-> price_op f op.
Proof.
  unfold build_price_filter, price_op.
  destruct (FilterRequest.price_min f) as [lo|], (FilterRequest.price_max f) as [hi|];
    simpl; split.
  - intros [<-|[<-|[]]]; [left; now exists lo|right; now exists hi].
  - intros [(x & [= <-] & ->)|(x & [= <-] & ->)]; auto.
  - intros [<-|[]]. left. now exists lo.
  - intros [(x & [= <-] & ->)|(x & E & _)]; [auto|discriminate].
  - intros [<-|[]]. right. now exists hi.
  - intros [(x & E & _)|(x & [= <-] & ->)]; [discriminate|auto].
  - intros [].
  - intros [(x & E & _)|(x & E & _)]; discriminate.
Qed.

Lemma In_with_price (pf : list (string * Q)) (q : query_t) (e x : string * qvalue) :
  In e (if truthy_list pf then q ++ [x] else q) <->
  In e q \/ (truthy_list pf = true /\ e = x).
Proof.
  destruct (truthy_list pf).
  - rewrite in_app_iff. simpl. split.
    + intros [H|[H|[]]]; [now left|right; split; [reflexivity|now symmetry]].
    + intros [H|[_ ->]]; [now left|right; now left].
  - split; [now left|]. intros [H|[H _]]; [exact H|discriminate].
Qed.

Ltac entry_of H tac :=
  let a := fresh "a" in
  let E := fresh "E" in
  let T := fresh "T" in
  destruct H as (a & E & T & ->); exists a;
  split; [exact E|]; split; [now apply tac|reflexivity].

Lemma build_query_spec (f : FilterRequest.t) (e : string * qvalue) :
  In e (build_query f) <-> query_entry f e.
Proof.
  unfold build_query, query_entry, search_clause. cbv zeta.
  rewrite In_with_price, !In_set_if_iff, truthy_price_filter. simpl.
  split; intro H.
  - destruct H as [H|H]; [|do 7 right; exact H].
    destruct H as [H|H]; [|do 6 right; left; entry_of H truthy_str_spec].
    destruct H as [H|H]; [|do 5 right; left; entry_of H (@truthy_list_spec string)].
    destruct H as [H|H]; [|do 4 right; left; entry_of H (@truthy_list_spec string)].
    destruct H as [H|H]; [|do 3 right; left; entry_of H (@truthy_list_spec string)].
    destruct H as [H|H]; [|do 2 right; left; entry_of H truthy_str_spec].
    destruct H as [H|H]; [|right; left; entry_of H truthy_str_spec].
    destruct H as [H|[]]. left. now symmetry.
  - destruct H as [H|H]; [do 8 left; now symmetry|].
    destruct H as [H|H]; [do 6 left; right; entry_of H truthy_str_spec|].
    destruct H as [H|H]; [do 5 left; right; entry_of H truthy_str_spec|].
    destruct H as [H|H]; [do 4 left; right; entry_of H (@truthy_list_spec string)|].
    destruct H as [H|H]; [do 3 left; right; entry_of H (@truthy_list_spec string)|].
    destruct H as [H|H]; [do 2 left; right; entry_of H (@truthy_list_spec string)|].
    destruct H as [H|H]; [left; right; entry_of H truthy_str_spec|].
    right. exact H.
Qed.

(** C10. A category, subcategory or search that is the empty string, and a
    colors, sizes or tags that is the empty list, add nothing to the query:
    the request behaves as the one where those fields are absent, and the
    query holds an entry for such a field exactly when it is truthy.  The
    price bounds are applied whenever they are not null, whatever their
    values: the query holds a price entry exactly when a bound is given, the
    entry holds the lower bound of [price_min] and the upper bound of
    [price_max], and every matching product is within them; with
    [price_min = 0.0] the query has a price clause with the bound 0. *)
Theorem falsy_fields_are_absent
        (engine : Engine)
        (f : FilterRequest.t) :
  build_query f = build_query (drop_falsy f)
  /\ (forall w, search_products engine f w = search_products engine (drop_falsy f) w)
  /\ (exists price_filter,
        In ("price", Cond (Ops price_filter)) (build_query (with_price_min 0 f))
        /\ In ("$gte", 0%Q) price_filter)
  /\ (forall e, In e (build_query f) <-> query_entry f e)
  /\ (forall op, In op (build_price_filter f) <-> price_op f op)
  /\ (forall lo, FilterRequest.price_min f = Some lo ->
        In ("price", Cond (Ops (build_price_filter f))) (build_query f)
        /\ In ("$gte", lo) (build_price_filter f))
  /\ (forall hi, FilterRequest.price_max f = Some hi ->
        In ("price", Cond (Ops (build_price_filter f))) (build_query f)
        /\ In ("$lte", hi) (build_price_filter f))
  /\ (forall d, matches engine (build_query f) d = true ->
        exists p, body d = product_model p /\ in_price_range f p).
Proof.
  split; [now rewrite build_query_drop_falsy|]. split.
  { intro w. apply search_products_ext; try reflexivity.
    now rewrite build_query_drop_falsy. }
  split.
  { exists (build_price_filter (with_price_min 0 f)). split.
    - unfold build_query.
      assert (T : truthy_list (build_price_filter (with_price_min 0 f)) = true).
      { unfold build_price_filter. simpl.
        now destruct (FilterRequest.price_max f). }
      rewrite T. apply in_or_app. right. now left.
    - unfold build_price_filter. simpl.
      destruct (FilterRequest.price_max f); simpl; auto. }
  split; [intro e; apply build_query_spec|].
  split; [intro op; apply build_price_filter_spec|].
  split; [|split].
  - intros lo H. split.
    + apply build_query_spec. do 7 right. split; [left; congruence|reflexivity].
    + apply build_price_filter_spec. left. now exists lo.
  - intros hi H. split.
    + apply build_query_spec. do 7 right. split; [right; congruence|reflexivity].
    + apply build_price_filter_spec. right. now exists hi.
  - intro d. apply matches_price.
Qed.

Lemma falsy_fields_are_absent_witness :
  FilterRequest.price_max (with_price_max (30 # 1) (with_price_min 0 no_filter))
  = Some (30 # 1)
  /\ In ("$lte", 30 # 1)
        (build_price_filter (with_price_max (30 # 1) (with_price_min 0 no_filter)))
  /\ In ("$gte", 0%Q)
        (build_price_filter (with_price_max (30 # 1) (with_price_min 0 no_filter))).
Proof.
  destruct (falsy_fields_are_absent no_pcre
              (with_price_max (30 # 1) (with_price_min 0 no_filter)))
    as (_ & _ & _ & _ & _ & Hlo & Hhi & _).
  split; [reflexivity|]. split.
  - apply (Hhi (30 # 1) eq_refl).
  - apply (Hlo 0%Q eq_refl).
Defined.

Example empty_category_is_no_filter :
  build_query
    {| FilterRequest.category := Some "";
       FilterRequest.subcategory := Some "";
       FilterRequest.price_min := None;
       FilterRequest.price_max := None;
       FilterRequest.colors := Some [];
       FilterRequest.sizes := Some [];
       FilterRequest.tags := Some [];
       FilterRequest.sort := None;
       FilterRequest.search := Some "";
       FilterRequest.page := 1;
       FilterRequest.limit := 24 |}
  = [("is_active", Cond (Equals (SBool true)))].
Proof. reflexivity. Qed.

Example price_min_zero_is_a_filter :
  build_query (with_price_min 0 no_filter)
  = [("is_active", Cond (Equals (SBool true)));
     ("price", Cond (Ops [("$gte", 0%Q)]))].
Proof. reflexivity. Qed.

Example price_max_is_a_filter :
  build_query (with_price_max (30 # 1) (with_price_min 0 no_filter))
  = [("is_active", Cond (Equals (SBool true)));
     ("price", Cond (Ops [("$gte", 0%Q); ("$lte", 30 # 1)]))].
Proof. reflexivity. Qed.

(** X3. The price bounds are inclusive and independent: a product satisfies
    the price clause exactly when its price is at least [price_min], if that is
    given, and at most [price_max], if that is given; every returned product is
    within the bounds. *)
Theorem price_bounds_inclusive
        (engine : Engine)
        (f : FilterRequest.t) :
  (forall d p, body d = product_model p ->
     (price_clause engine f d = true <-> in_price_range f p))
  /\ (forall w w' r,
        search_products engine f w = (Ok r, w') ->
        Forall (fun it => exists p, item_body it = product_model p /\ in_price_range f p)
               (SearchResponse.items r)).
Proof.
  split; [intros d p E; now apply price_clause_product|].
  intros w w' r H. apply search_products_inv in H. destruct H as (db & -> & -> & ->).
  apply Forall_forall. intros it Hit.
  apply page_items_matching in Hit. destruct Hit as (d & -> & Hd).
  apply matching_spec in Hd. destruct Hd as [_ Hd].
  simpl. eapply matches_price. exact Hd.
Qed.

Lemma price_bounds_inclusive_witness :
  Forall (fun it => exists p, item_body it = product_model p
                              /\ in_price_range (with_price_min (20 # 1) no_filter) p)
    (SearchResponse.items
       (search_response no_pcre sample_db (with_price_min (20 # 1) no_filter))).
Proof.
  destruct (price_bounds_inclusive no_pcre (with_price_min (20 # 1) no_filter)) as [_ H].
  apply (H (Some sample_db) (Some sample_db)). reflexivity.
Defined.

Example price_min_fifteen_returns_the_bra :
  map item_title
      (SearchResponse.items
         (search_response no_pcre sample_db (with_price_min (15 # 1) no_filter)))
  = ["Lace Bra"].
Proof. reflexivity. Qed.

Example price_min_at_the_price_includes_it :
  map item_title
      (SearchResponse.items
         (search_response no_pcre sample_db (with_price_min (20 # 1) no_filter)))
  = ["Lace Bra"].
Proof. reflexivity. Qed.

Lemma page_of_nil (f : FilterRequest.t) spec : page_of f (apply_sort spec []) = [].
Proof.
  unfold page_of, apply_limit. destruct spec; simpl; rewrite skipn_nil, firstn_nil;
    now destruct (FilterRequest.limit f =? 0).
Qed.

(** X4. When [price_min] is greater than [price_max] no product matches: the
    total is 0 and the page and both facet lists are empty. *)
Theorem crossed_price_bounds_match_nothing
        (engine : Engine)
        (f : FilterRequest.t) (db : Database) (lo hi : Q) :
  accepted engine f ->
  FilterRequest.price_min f = Some lo ->
  FilterRequest.price_max f = Some hi ->
  (hi < lo)%Q ->
  search_products engine f (Some db)
  = (Ok {| SearchResponse.total := 0;
           SearchResponse.page := FilterRequest.page f;
           SearchResponse.limit := FilterRequest.limit f;
           SearchResponse.items := [];
           SearchResponse.facets := {| colors := []; sizes := [] |} |}, Some db).
Proof.
  intros Ha Hlo Hhi Hlt. rewrite (search_products_ok _ Ha).
  assert (E : matching engine db f = []).
  { unfold matching. apply filter_nil_when_none. intros d _.
    destruct (matches engine (build_query f) d) eqn:M; [|reflexivity].
    apply matches_price in M. destruct M as (p & _ & H1 & H2).
    exfalso. apply (Qlt_not_le _ _ Hlt).
    eapply Qle_trans; [apply (H1 lo Hlo)|apply (H2 hi Hhi)]. }
  unfold search_response. rewrite E, page_of_nil. reflexivity.
Qed.

Lemma crossed_price_bounds_match_nothing_witness :
  accepted no_pcre (with_price_max (10 # 1) (with_price_min (20 # 1) no_filter))
  /\ (10 # 1 < 20 # 1)%Q
  /\ fst (search_products no_pcre
            (with_price_max (10 # 1) (with_price_min (20 # 1) no_filter))
            (Some sample_db))
     = Ok {| SearchResponse.total := 0;
             SearchResponse.page := 1;
             SearchResponse.limit := 24;
             SearchResponse.items := [];
             SearchResponse.facets := {| colors := []; sizes := [] |} |}.
Proof.
  split; [reflexivity|]. split; [reflexivity|].
  rewrite (@crossed_price_bounds_match_nothing no_pcre
             (with_price_max (10 # 1) (with_price_min (20 # 1) no_filter))
             sample_db (20 # 1) (10 # 1) eq_refl eq_refl eq_refl eq_refl).
  reflexivity.
Defined.

(** X5. A non-empty category is matched exactly, letter case included: every
    returned product has that category.  A non-empty subcategory likewise,
    so a product without a subcategory is never returned under it. *)
Theorem category_filters_are_exact
        (engine : Engine)
        (f : FilterRequest.t) (w w' : World) (r : SearchResponse.t) :
  search_products engine f w = (Ok r, w') ->
  (forall c, FilterRequest.category f = Some c -> c <> "" ->
     Forall (fun it => exists p, item_body it = product_model p /\ Product.category p = c)
            (SearchResponse.items r))
  /\ (forall c, FilterRequest.subcategory f = Some c -> c <> "" ->
     Forall (fun it => exists p, item_body it = product_model p
                                 /\ Product.subcategory p = Some c)
            (SearchResponse.items r)).
Proof.
  intro H. split; intros c Hc Hne; apply truthy_str_nonempty in Hne.
  - apply (@returned_items_satisfy engine f w w' r
             ("category", Cond (Equals (SStr c)))
             (fun m => exists p, m = product_model p /\ Product.category p = c) H).
    + unfold build_query. rewrite Hc. query_mem.
    + intro d. apply category_clause_spec.
  - apply (@returned_items_satisfy engine f w w' r
             ("subcategory", Cond (Equals (SStr c)))
             (fun m => exists p, m = product_model p /\ Product.subcategory p = Some c) H).
    + unfold build_query. rewrite Hc. query_mem.
    + intro d. apply subcategory_clause_spec.
Qed.

Lemma category_filters_are_exact_witness :
  Forall (fun it => exists p, item_body it = product_model p /\ Product.category p = "Bras")
    (SearchResponse.items (search_response no_pcre sample_db (with_category "Bras" no_filter))).
Proof.
  destruct (@category_filters_are_exact no_pcre (with_category "Bras" no_filter)
              (Some sample_db) (Some sample_db)
              (search_response no_pcre sample_db (with_category "Bras" no_filter))
              eq_refl) as [H _].
  apply H; [reflexivity|discriminate].
Defined.

Example category_is_case_sensitive :
  SearchResponse.total (search_response no_pcre sample_db (with_category "bras" no_filter))
  = 0%nat.
Proof. reflexivity. Qed.

(** X8. A request that sets no filter matches exactly the active products of
    the collection. *)
Theorem unfiltered_search_matches_the_active_products
        (engine : Engine)
        (f : FilterRequest.t) (db : Database) :
  unfiltered f ->
  accepted engine f
  /\ forall d, In d (matching engine db f) <->
               In d (getitem db "product") /\ is_active_product (body d).
Proof.
  intro H. pose proof (build_query_unfiltered H) as E. split.
  - unfold accepted. now rewrite E.
  - intro d. rewrite matching_spec, E.
    unfold matches. simpl. rewrite andb_true_r.
    fold (active_clause engine d). now rewrite active_clause_spec.
Qed.

Lemma unfiltered_search_matches_the_active_products_witness :
  unfiltered no_filter
  /\ forall d, In d (matching no_pcre sample_db no_filter) <->
               In d (getitem sample_db "product") /\ is_active_product (body d).
Proof.
  assert (U : unfiltered no_filter) by (repeat split).
  split; [exact U|].
  apply (unfiltered_search_matches_the_active_products no_pcre sample_db U).
Defined.

Section RelaxFacts.
Variable engine : Engine.

Lemma clause_relaxed {A} (truthy : A -> bool) (of_g of_f : option A)
      (entry : A -> string * qvalue) (d : Document) :
  relaxed_field truthy of_g of_f ->
  clause engine truthy of_f entry d = true ->
  clause engine truthy of_g entry d = true.
Proof.
  intros [H| ->] Hf; [|exact Hf].
  unfold clause, keep_truthy in *. destruct of_g as [a|]; [|reflexivity].
  destruct (truthy a); [discriminate|reflexivity].
Qed.

Lemma in_price_range_relaxed (g f : FilterRequest.t) (p : Product.t) :
  (FilterRequest.price_min g = None
   \/ FilterRequest.price_min g = FilterRequest.price_min f) ->
  (FilterRequest.price_max g = None
   \/ FilterRequest.price_max g = FilterRequest.price_max f) ->
  in_price_range f p -> in_price_range g p.
Proof.
  intros Hlo Hhi [H1 H2]. split.
  - intros lo E. destruct Hlo as [N|Eq]; [congruence|]. apply H1. congruence.
  - intros hi E. destruct Hhi as [N|Eq]; [congruence|]. apply H2. congruence.
Qed.

Lemma matches_relaxed (g f : FilterRequest.t) (d : Document) :
  relaxes g f ->
  matches engine (build_query f) d = true ->
  matches engine (build_query g) d = true.
Proof.
  intros (Hc & Hsc & Hcol & Hsiz & Htag & Hs & Hlo & Hhi) M.
  destruct (@matches_price engine f d M) as (p & E & Hr).
  rewrite matches_build_query, !andb_true_iff in M.
  destruct M as [[[[[[[Ma Mc] Msc] Mcol] Msiz] Mtag] Ms] Mp].
  rewrite matches_build_query, !andb_true_iff. repeat split.
  - exact Ma.
  - eapply clause_relaxed; [exact Hc|exact Mc].
  - eapply clause_relaxed; [exact Hsc|exact Msc].
  - eapply clause_relaxed; [exact Hcol|exact Mcol].
  - eapply clause_relaxed; [exact Hsiz|exact Msiz].
  - eapply clause_relaxed; [exact Htag|exact Mtag].
  - eapply clause_relaxed; [exact Hs|exact Ms].
  - apply (@price_clause_product engine g d p E).
    now apply (@in_price_range_relaxed g f p).
Qed.

Lemma accepted_relaxed (g f : FilterRequest.t) :
  relaxes g f -> accepted engine f -> accepted engine g.
Proof.
  intros (_ & _ & _ & _ & _ & Hs & _) Ha. unfold accepted in *.
  rewrite query_ok_build_query in *. unfold pattern_ok in *.
  destruct Hs as [H| ->]; [|exact Ha].
  unfold keep_truthy in H. destruct (FilterRequest.search g) as [s|]; [|reflexivity].
  destruct (truthy_str s); [discriminate|reflexivity].
Qed.

End RelaxFacts.

(** X9. Dropping filters from a request never loses results.  When every
    filter field of [g] is absent, falsy or as in [f], and every price bound
    of [g] is absent or as in [f], the search for [g] succeeds whenever the
    search for [f] does, every product that matches [f] matches [g], and the
    total of [f] is at most the total of [g]. *)
Theorem relaxing_filters_only_adds_results
        (engine : Engine) (f g : FilterRequest.t) (db : Database) :
  relaxes g f ->
  accepted engine f ->
  exists rf rg,
    search_products engine f (Some db) = (Ok rf, Some db)
    /\ search_products engine g (Some db) = (Ok rg, Some db)
    /\ incl (matching engine db f) (matching engine db g)
    /\ (SearchResponse.total rf <= SearchResponse.total rg)%nat.
Proof.
  intros Hr Ha. pose proof (@accepted_relaxed engine g f Hr Ha) as Hg.
  exists (search_response engine db f), (search_response engine db g).
  split; [now apply search_products_ok|]. split; [now apply search_products_ok|].
  split.
  - intros d Hd. apply matching_spec in Hd. apply matching_spec.
    split; [tauto|]. apply (@matches_relaxed engine g f d Hr). tauto.
  - simpl. unfold matching. apply filter_length_mono.
    intros d _. now apply (@matches_relaxed engine g f d Hr).
Qed.

Lemma relaxing_filters_only_adds_results_witness :
  relaxes no_filter (with_colors ["Red"] no_filter)
  /\ accepted no_pcre (with_colors ["Red"] no_filter)
  /\ (SearchResponse.total
        (search_response no_pcre sample_db (with_colors ["Red"] no_filter))
      <= SearchResponse.total (search_response no_pcre sample_db no_filter))%nat.
Proof.
  assert (Hr : relaxes no_filter (with_colors ["Red"] no_filter)).
  { repeat split; left; reflexivity. }
  split; [exact Hr|]. split; [reflexivity|].
  destruct (@relaxing_filters_only_adds_results no_pcre
              (with_colors ["Red"] no_filter) no_filter sample_db Hr eq_refl)
    as (rf & rg & H1 & H2 & _ & H4).
  injection H1 as <-. injection H2 as <-. exact H4.
Defined.

(** ** Search and lookup agree *)

Lemma find_one_unique (collection : list Document) (d : Document) :
  NoDup (map _id collection) -> In d collection ->
  find_one collection (_id d) = Some d.
Proof.
  unfold find_one. induction collection as [|x l IH]; intros Hnd Hin; [contradiction|].
  simpl. inversion Hnd as [|? ? Hnin Hnd']; subst.
  destruct (oid_eqb (_id x) (_id d)) eqn:E.
  - apply oid_eqb_eq in E. destruct Hin as [->|Hin]; [reflexivity|].
    exfalso. apply Hnin. rewrite E. now apply in_map.
  - destruct Hin as [->|Hin]; [|now apply IH].
    assert (T : oid_eqb (_id d) (_id d) = true) by now apply oid_eqb_eq.
    congruence.
Qed.

(** X10. Search and lookup agree: when the products have distinct identifiers
    of twelve bytes, every item that a search returns is returned, unchanged,
    by get-product called with the identifier string of the item. *)
Theorem returned_items_can_be_fetched
        (engine : Engine)
        (f : FilterRequest.t) (db : Database) (r : SearchResponse.t) (it : Item) :
  NoDup (map _id (getitem db "product")) ->
  Forall (fun d => List.length (_id d) = 12%nat) (getitem db "product") ->
  search_products engine f (Some db) = (Ok r, Some db) ->
  In it (SearchResponse.items r) ->
  get_product (item_id it) (Some db) = (Ok it, Some db).
Proof.
  intros Hnd Hlen H Hit. apply search_products_inv in H.
  destruct H as (db' & [= <-] & _ & ->).
  apply page_items_matching in Hit. destruct Hit as (d & -> & Hd).
  apply matching_spec in Hd. destruct Hd as [Hd _].
  rewrite Forall_forall in Hlen.
  unfold get_product, bind, get_db, ret. simpl.
  rewrite (@ObjectId_str _ (Hlen d Hd)), (@find_one_unique _ _ Hnd Hd). reflexivity.
Qed.

Lemma returned_items_can_be_fetched_witness :
  NoDup (map _id (getitem sample_db "product"))
  /\ get_product "000000000000000000000001" (Some sample_db)
     = (Ok (serialise {| _id := oid_of_counter 1; body := product_model cotton_brief |}),
        Some sample_db).
Proof.
  assert (Hnd : NoDup (map _id (getitem sample_db "product"))).
  { vm_compute. repeat constructor; simpl; intuition discriminate. }
  split; [exact Hnd|].
  apply (@returned_items_can_be_fetched no_pcre no_filter sample_db
           (search_response no_pcre sample_db no_filter)
           (serialise {| _id := oid_of_counter 1; body := product_model cotton_brief |})
           Hnd).
  - vm_compute. repeat constructor.
  - reflexivity.
  - vm_compute. right. left. reflexivity.
Defined.

(** ** Facet counts add up *)

Lemma nonempty_total_bump (key : string) (groups : list (string * nat)) :
  nonempty_total (bump key groups)
  = (nonempty_total groups + if truthy_str key then 1 else 0)%nat.
Proof.
  unfold nonempty_total. induction groups as [|[k n] rest IH]; simpl.
  - destruct (truthy_str key); reflexivity.
  - destruct (String.eqb key k) eqn:E; simpl.
    + apply String.eqb_eq in E. subst k. destruct (truthy_str key); simpl; lia.
    + destruct (truthy_str k); simpl; rewrite IH; lia.
Qed.

Lemma nonempty_total_fold (keys : list string) (groups : list (string * nat)) :
  nonempty_total (fold_left (fun groups key => bump key groups) keys groups)
  = (nonempty_total groups + List.length (filter truthy_str keys))%nat.
Proof.
  revert groups. induction keys as [|key keys IH]; intro groups; simpl; [lia|].
  rewrite IH, nonempty_total_bump. destruct (truthy_str key); simpl; lia.
Qed.

Lemma nonempty_total_perm (l l' : list (string * nat)) :
  Permutation l l' -> nonempty_total l = nonempty_total l'.
Proof.
  unfold nonempty_total. induction 1 as [|x l l' _ IH|x y l|l l' l'' _ IH1 _ IH2]; simpl.
  - reflexivity.
  - destruct (truthy_str (fst x)); simpl; lia.
  - destruct (truthy_str (fst x)), (truthy_str (fst y)); simpl; lia.
  - congruence.
Qed.

Lemma facet_list_total (keys : list string) :
  list_sum (map count (facet_list (isort count_desc (group_count keys))))
  = List.length (filter truthy_str keys).
Proof.
  unfold facet_list. rewrite map_map. simpl.
  change (list_sum (map (fun c : string * nat => snd c)
                        (filter (fun c => truthy_str (fst c))
                                (isort count_desc (group_count keys)))))
    with (nonempty_total (isort count_desc (group_count keys))).
  rewrite <- (nonempty_total_perm (isort_perm count_desc (group_count keys))).
  unfold group_count. now rewrite nonempty_total_fold.
Qed.

(** X11. The counts of the color facets add up to the number of variants of
    matching products that have a non-empty color, and the counts of the size
    facets to the number of those that have a non-empty size. *)
Theorem facet_counts_add_up
        (engine : Engine)
        (f : FilterRequest.t) (db : Database) :
  accepted engine f ->
  exists r,
    search_products engine f (Some db) = (Ok r, Some db)
    /\ list_sum (map count (colors (SearchResponse.facets r)))
       = List.length (filter (fun v => truthy_str (ProductVariant.color v))
                             (unwind (matching engine db f)))
    /\ list_sum (map count (sizes (SearchResponse.facets r)))
       = List.length (filter (fun v => truthy_str (ProductVariant.size v))
                             (unwind (matching engine db f))).
Proof.
  intro Ha. exists (search_response engine db f).
  split; [now apply search_products_ok|].
  assert (L : forall (key : ProductVariant.t -> string) (vs : list ProductVariant.t),
             List.length (filter truthy_str (map key vs))
             = List.length (filter (fun v => truthy_str (key v)) vs)).
  { intros key vs. induction vs as [|v vs IH]; simpl; [reflexivity|].
    destruct (truthy_str (key v)); simpl; now rewrite IH. }
  split; simpl; rewrite facet_list_total; apply L.
Qed.

Lemma facet_counts_add_up_witness :
  accepted no_pcre no_filter
  /\ list_sum (map count (colors (SearchResponse.facets
                                    (search_response no_pcre sample_db no_filter))))
     = 4%nat.
Proof.
  split; [reflexivity|].
  destruct (@facet_counts_add_up no_pcre no_filter sample_db eq_refl) as (r & H1 & H2 & _).
  injection H1 as <-. exact H2.
Defined.

(** ** Seeding and ordering, and what a later search sees *)

Section GatewayFacts.
Variable insert_raises : Database -> string -> Model -> bool.

Lemma seed_loop_length (products : list Product.t) (acc : list string)
      (w w' : World) (l : list string) :
  seed_loop insert_raises products acc w = (Ok l, w') ->
  List.length l = (List.length acc + List.length products)%nat.
Proof.
  revert acc w. induction products as [|prod rest IH]; intros acc w H; simpl in *.
  - injection H as <- _. lia.
  - unfold bind in H at 1.
    destruct (create_document insert_raises "product" (product_model prod) w)
      as [[inserted_id|e] w1]; [|discriminate].
    apply IH in H. rewrite length_app in H. simpl in H. lia.
Qed.

Lemma seed_loop_inv (products : list Product.t) (acc : list string)
      (d : Database) (w' : World) (l : list string) :
  seed_loop insert_raises products acc (Some d) = (Ok l, w') ->
  all_inserts_succeed insert_raises d products = true.
Proof.
  revert acc d. induction products as [|prod rest IH]; intros acc d H; simpl in *.
  - reflexivity.
  - unfold bind in H at 1. unfold create_document in H.
    destruct (insert_raises d "product" (product_model prod)); [discriminate|].
    simpl. eapply IH. exact H.
Qed.

Lemma seed_products_inv (products : list Product.t) (d : Database)
      (r : SeedResponse) (w' : World) :
  seed_products insert_raises products (Some d) = (Ok r, w') ->
  w' = Some (fold_left store_product products d).
Proof.
  unfold seed_products, bind at 1, get_db. unfold bind.
  destruct (seed_loop insert_raises products [] (Some d)) as [[l|e] w1] eqn:E;
    [|discriminate].
  pose proof (seed_loop_inv _ _ _ E) as Hok.
  rewrite (@seed_loop_ok insert_raises products d [] Hok) in E.
  injection E as _ <-. unfold ret. now intros [= _ <-].
Qed.

End GatewayFacts.

Lemma getitem_seeded_other (products : list Product.t) (d : Database) (name : string) :
  name <> "product" ->
  getitem (fold_left store_product products d) name = getitem d name.
Proof.
  intro Hne. revert d. induction products as [|prod rest IH]; intro d; simpl; [reflexivity|].
  rewrite IH. unfold store_product, store, insert_one, getitem. simpl.
  destruct (String.eqb name "product") eqn:E; [|reflexivity].
  apply String.eqb_eq in E. contradiction.
Qed.

Lemma search_depends_on_products
      (engine : Engine)
      (f : FilterRequest.t) (d1 d2 : Database) :
  getitem d1 "product" = getitem d2 "product" ->
  fst (search_products engine f (Some d1)) = fst (search_products engine f (Some d2)).
Proof.
  intro H. rewrite !search_products_run.
  destruct (query_ok engine (build_query f)); [|reflexivity].
  simpl. unfold search_response, matching. now rewrite H.
Qed.

Lemma get_product_depends_on_products (product_id : string) (d1 d2 : Database) :
  getitem d1 "product" = getitem d2 "product" ->
  fst (get_product product_id (Some d1)) = fst (get_product product_id (Some d2)).
Proof.
  intro H. unfold get_product, bind, get_db, raise, ret. simpl. rewrite H.
  destruct (ObjectId product_id) as [oid|]; [|reflexivity].
  now destruct (find_one (getitem d2 "product") oid).
Qed.

(** X12. A successful seed reports one identifier per submitted product, and
    the count it reports is that number; the empty batch succeeds with a count
    of 0 and leaves the database as it was. *)
Theorem seed_reports_one_id_per_product
        (insert_raises : Database -> string -> Model -> bool)
        (products : list Product.t) (w w' : World) (r : SeedResponse) :
  (seed_products insert_raises products w = (Ok r, w') ->
   inserted r = List.length products /\ List.length (ids r) = List.length products)
  /\ (forall d, seed_products insert_raises [] (Some d)
                = (Ok {| inserted := 0; ids := [] |}, Some d)).
Proof.
  split; [|reflexivity].
  unfold seed_products, bind at 1, get_db.
  destruct w as [d|]; [|discriminate]. unfold bind.
  destruct (seed_loop insert_raises products [] (Some d)) as [[l|e] w1] eqn:E;
    [|discriminate].
  apply seed_loop_length in E. unfold ret. intros [= <- _]. simpl. simpl in E. lia.
Qed.

Lemma seed_reports_one_id_per_product_witness :
  seed_products never_raises [lace_bra; cotton_brief] (Some empty_db)
  = (Ok {| inserted := 2;
           ids := ["000000000000000000000000"; "000000000000000000000001"] |},
     Some (fold_left store_product [lace_bra; cotton_brief] empty_db))
  /\ inserted {| inserted := 2;
                 ids := ["000000000000000000000000"; "000000000000000000000001"] |}
     = List.length [lace_bra; cotton_brief].
Proof.
  split; [reflexivity|].
  destruct (@seed_reports_one_id_per_product never_raises [lace_bra; cotton_brief]
              (Some empty_db)
              (Some (fold_left store_product [lace_bra; cotton_brief] empty_db))
              {| inserted := 2;
                 ids := ["000000000000000000000000"; "000000000000000000000001"] |})
    as [H _].
  apply H. reflexivity.
Defined.

(** X13. After a successful seed a search finds what it found before, followed
    by the seeded products that satisfy the query, so a seeded product that is
    not active is never found; the order collection is left as it was. *)
Theorem seeded_products_become_searchable
        (engine : Engine)
        (insert_raises : Database -> string -> Model -> bool)
        (products : list Product.t) (d d' : Database) (r : SeedResponse)
        (f : FilterRequest.t) :
  seed_products insert_raises products (Some d) = (Ok r, Some d') ->
  matching engine d' f
  = matching engine d f
      ++ filter (matches engine (build_query f)) (stored_docs d products)
  /\ Forall (fun doc => is_active_product (body doc))
            (filter (matches engine (build_query f)) (stored_docs d products))
  /\ getitem d' "order" = getitem d "order".
Proof.
  intro H. apply seed_products_inv in H. injection H as ->.
  split; [|split].
  - unfold matching. now rewrite getitem_seeded, filter_app.
  - apply Forall_forall. intros doc Hdoc. apply filter_In in Hdoc.
    eapply matches_active. apply Hdoc.
  - apply getitem_seeded_other. discriminate.
Qed.

Lemma seeded_products_become_searchable_witness :
  map (fun doc => match body doc with
                  | product_model p => Product.title p
                  | order_model _ => ""
                  end)
      (matching no_pcre (fold_left store_product [cotton_brief; retired_slip] empty_db)
                no_filter)
  = ["Cotton Brief"].
Proof.
  destruct (@seeded_products_become_searchable no_pcre never_raises
              [cotton_brief; retired_slip] empty_db
              (fold_left store_product [cotton_brief; retired_slip] empty_db)
              {| inserted := 2;
                 ids := ["000000000000000000000000"; "000000000000000000000001"] |}
              no_filter eq_refl) as (H & _ & _).
  rewrite H. reflexivity.
Defined.

(** X14. Creating an order adds one document to the order collection and
    answers with its identifier; the product collection is untouched, so every
    search and every lookup answers as before.  When the insert fails the
    error is raised and the database is as it was. *)
Theorem create_order_outcome
        (engine : Engine)
        (insert_raises : Database -> string -> Model -> bool)
        (order : Order.t) (d : Database) :
  (insert_raises d "order" (order_model order) = false ->
   create_order insert_raises order (Some d)
   = (Ok {| order_id := str (oid_of_counter (oid_counter d)) |},
      Some (store_order d order))
   /\ getitem (store_order d order) "order"
      = getitem d "order"
          ++ [{| _id := oid_of_counter (oid_counter d); body := order_model order |}]
   /\ getitem (store_order d order) "product" = getitem d "product"
   /\ (forall f, fst (search_products engine f (Some (store_order d order)))
                 = fst (search_products engine f (Some d)))
   /\ (forall product_id, fst (get_product product_id (Some (store_order d order)))
                          = fst (get_product product_id (Some d))))
  /\ (insert_raises d "order" (order_model order) = true ->
      exists e, create_order insert_raises order (Some d) = (Raise e, Some d)).
Proof.
  split.
  - intro H.
    assert (P : getitem (store_order d order) "product" = getitem d "product")
      by reflexivity.
    split; [unfold create_order, bind, get_db, create_document; now rewrite H|].
    split; [reflexivity|]. split; [exact P|]. split.
    + intro f. now apply search_depends_on_products.
    + intro product_id. now apply get_product_depends_on_products.
  - intro H. eexists. unfold create_order, bind, get_db, create_document.
    now rewrite H.
Qed.

Lemma create_order_outcome_witness :
  never_raises sample_db "order" (order_model sample_order) = false
  /\ create_order never_raises sample_order (Some sample_db)
     = (Ok {| order_id := "000000000000000000000003" |},
        Some (store_order sample_db sample_order)).
Proof.
  split; [reflexivity|].
  destruct (create_order_outcome no_pcre never_raises sample_order sample_db) as [H _].
  destruct (H eq_refl) as (H1 & _). exact H1.
Defined.

(** ** The diagnostic handler *)

Lemma group_chars_head (r : ascii) (l : list ascii) :
  exists t cs, group_chars (r :: l) = (r :: t) :: cs.
Proof.
  cbn [group_chars]. destruct l as [|r' l']; [now exists [], []|].
  destruct (is_continuation r').
  - destruct (group_chars (r' :: l')) as [|c cs']; [now exists [], []|].
    now exists c, cs'.
  - now exists [], (group_chars (r' :: l')).
Qed.

Lemma grouped_later (gs : list char_t) : Forall later_char gs -> grouped gs.
Proof.
  intros [|g rest Hg Hrest]; simpl; [exact I|].
  destruct g as [|b t]; [contradiction|]. split; [apply Hg|exact Hrest].
Qed.

Lemma group_chars_grouped (bs : list ascii) : grouped (group_chars bs).
Proof.
  induction bs as [|b rest IH]; [exact I|].
  destruct rest as [|r l]; [simpl; split; [reflexivity|constructor]|].
  destruct (group_chars_head r l) as (t & cs & E).
  cbn [group_chars]. cbn [group_chars] in E, IH. rewrite E in *.
  destruct IH as [Ht Hcs]. destruct (is_continuation r) eqn:Er; simpl.
  - split; [now rewrite Er, Ht|exact Hcs].
  - split; [reflexivity|]. constructor; [|exact Hcs]. simpl. now split.
Qed.

Lemma group_chars_app (t : list ascii) (b : ascii) (more : list ascii) :
  forallb is_continuation t = true ->
  match more with [] => True | m :: _ => is_continuation m = false end ->
  group_chars (b :: t ++ more) = (b :: t) :: group_chars more.
Proof.
  revert b. induction t as [|c t IH]; intros b Ht Hm.
  - simpl app. destruct more as [|m more']; [reflexivity|].
    cbn [group_chars]. cbn [group_chars] in *. now rewrite Hm.
  - simpl in Ht. apply andb_true_iff in Ht. destruct Ht as [Hc Ht].
    specialize (IH c Ht Hm).
    change (group_chars (b :: (c :: t) ++ more))
      with (let cs := group_chars (c :: t ++ more) in
            if is_continuation c
            then match cs with
                 | c0 :: cs' => (b :: c0) :: cs'
                 | [] => [[b]]
                 end
            else [b] :: cs).
    cbv zeta. now rewrite IH, Hc.
Qed.

Lemma group_chars_concat (gs : list char_t) :
  grouped gs -> group_chars (List.concat gs) = gs.
Proof.
  assert (L : forall gs, Forall later_char gs -> group_chars (List.concat gs) = gs
                         /\ match List.concat gs with
                            | [] => True
                            | m :: _ => is_continuation m = false
                            end).
  { induction 1 as [|g rest Hg Hrest [IH1 IH2]]; [now split|].
    destruct g as [|b t]; [contradiction|]. destruct Hg as [Hb Ht].
    split; [|exact Hb]. simpl List.concat.
    change ((b :: t) ++ List.concat rest) with (b :: t ++ List.concat rest).
    now rewrite (group_chars_app t b (List.concat rest) Ht IH2), IH1. }
  destruct gs as [|g rest]; [reflexivity|]. intros [Hg Hrest].
  destruct g as [|b t]; [contradiction|]. destruct (L rest Hrest) as [IH1 IH2].
  simpl List.concat. change ((b :: t) ++ List.concat rest) with (b :: t ++ List.concat rest).
  now rewrite (group_chars_app t b (List.concat rest) Hg IH2), IH1.
Qed.

Lemma grouped_firstn (n : nat) (gs : list char_t) :
  grouped gs -> grouped (firstn n gs).
Proof.
  destruct n as [|n]; [intros _; exact I|].
  destruct gs as [|g rest]; [intros _; exact I|].
  intros [Hg Hrest]. simpl. split; [exact Hg|].
  rewrite Forall_forall in *. intros x Hx. apply Hrest. eapply In_firstn; eauto.
Qed.

Lemma chars_string_of (l : list ascii) : chars (string_of_list_ascii l) = l.
Proof. unfold chars. apply list_ascii_of_string_of_list_ascii. Qed.

(** The first [n] characters of a string are its characters up to [n]. *)
Lemma characters_slice_to (n : nat) (s : string) :
  characters (slice_to n s) = firstn n (characters s).
Proof.
  unfold slice_to, characters at 1. rewrite chars_string_of.
  apply group_chars_concat, grouped_firstn, group_chars_grouped.
Qed.

Lemma len_slice_to (n : nat) (s : string) : (len (slice_to n s) <= n)%nat.
Proof. unfold len. rewrite characters_slice_to. apply firstn_length_le. Qed.

(** X15. The diagnostic handler never raises and never touches the database
    handle.  It always reports the backend as running, and its database_url
    and database_name fields tell only whether the environment variables
    DATABASE_URL and DATABASE_NAME are set and not empty: what the handle or
    its name would say is overwritten. *)
Theorem test_database_reports_the_environment
        (list_collection_names : Database -> result (list string))
        (name_of : Database -> option string)
        (getenv : string -> option string) (w : World) :
  exists r,
    test_database list_collection_names name_of getenv w = (Ok r, w)
    /\ TestResponse.backend r = "✅ Running"
    /\ TestResponse.database_url r
       = Some (if truthy_env (getenv "DATABASE_URL") then "✅ Set" else "❌ Not Set")
    /\ TestResponse.database_name r
       = Some (if truthy_env (getenv "DATABASE_NAME") then "✅ Set" else "❌ Not Set").
Proof.
  unfold test_database, bind, get_db, ret. eexists. split; [reflexivity|].
  destruct w as [d|]; [destruct (list_collection_names d)|]; repeat split.
Qed.

(** X16. The diagnostic handler lists at most ten collections.  With a handle
    whose collections can be listed it reports the first ten names and
    "Connected & Working"; when the listing raises it reports no collection,
    still "Connected", and the first 50 characters of the error text; without
    a handle it reports "Not Connected" and no collection. *)
Theorem test_database_status
        (list_collection_names : Database -> result (list string))
        (name_of : Database -> option string)
        (getenv : string -> option string) (w : World) :
  exists r,
    test_database list_collection_names name_of getenv w = (Ok r, w)
    /\ (List.length (TestResponse.collections r) <= 10)%nat
    /\ (forall d names, w = Some d -> list_collection_names d = Ok names ->
          TestResponse.collections r = firstn 10 names
          /\ TestResponse.connection_status r = "Connected"
          /\ TestResponse.database r = "✅ Connected & Working")
    /\ (forall d e, w = Some d -> list_collection_names d = Raise e ->
          TestResponse.collections r = []
          /\ TestResponse.connection_status r = "Connected"
          /\ exists cut, TestResponse.database r
                         = ("⚠️  Connected but Error: " ++ cut)%string
                         /\ cut = slice_to 50 (exn_str e)
                         /\ characters cut = firstn 50 (characters (exn_str e))
                         /\ (len cut <= 50)%nat)
    /\ (w = None ->
          TestResponse.collections r = []
          /\ TestResponse.connection_status r = "Not Connected"
          /\ TestResponse.database r = "⚠️  Available but not initialized").
Proof.
  unfold test_database, bind, get_db, ret. eexists. split; [reflexivity|].
  destruct w as [d|].
  - destruct (list_collection_names d) as [names|e] eqn:E; simpl.
    + split; [exact (firstn_length_le 10 names)|]. split; [|split].
      * intros d' names' [= <-] H. rewrite E in H. injection H as <-. repeat split.
      * intros d' e' [= <-] H. congruence.
      * discriminate.
    + split; [lia|]. split; [|split].
      * intros d' names' [= <-] H. congruence.
      * intros d' e' [= <-] H. rewrite E in H. injection H as <-.
        split; [reflexivity|]. split; [reflexivity|].
        exists (slice_to 50 (exn_str e)). split; [reflexivity|].
        split; [reflexivity|].
        split; [apply characters_slice_to|apply len_slice_to].
      * discriminate.
  - simpl. split; [lia|]. split; [|split].
    + discriminate.
    + discriminate.
    + intros _. repeat split.
Qed.

Lemma test_database_status_witness :
  exists r,
    test_database (fun _ => Ok ["order"; "product"]) (fun _ => Some "store")
                  (fun _ => None) (Some sample_db) = (Ok r, Some sample_db)
    /\ TestResponse.collections r = ["order"; "product"]
    /\ TestResponse.database r = "✅ Connected & Working".
Proof.
  destruct (test_database_status (fun _ => Ok ["order"; "product"])
              (fun _ => Some "store") (fun _ => None) (Some sample_db))
    as (r & H1 & _ & H3 & _).
  exists r. split; [exact H1|].
  destruct (H3 sample_db ["order"; "product"] eq_refl eq_refl) as (Hc & _ & Hd).
  split; [exact Hc|exact Hd].
Defined.

(** ** Lookup never writes *)

(** X17. Get-product never changes the database handle; its answer depends on
    the product collection only; and an identifier that is not 24 characters
    long is refused with status 400 whatever the collection holds. *)
Theorem get_product_is_read_only (product_id : string) (w : World) :
  snd (get_product product_id w) = w
  /\ (forall d1 d2, getitem d1 "product" = getitem d2 "product" ->
        fst (get_product product_id (Some d1)) = fst (get_product product_id (Some d2)))
  /\ (String.length product_id <> 24%nat ->
      forall d, get_product product_id (Some d)
                = (Raise (HTTPException 400 "Invalid product id"), Some d)).
Proof.
  split; [|split].
  - unfold get_product, bind, get_db, raise, ret. destruct w as [d|]; [|reflexivity].
    simpl. destruct (ObjectId product_id) as [oid|]; [|reflexivity].
    now destruct (find_one (getitem d "product") oid).
  - intros d1 d2. apply get_product_depends_on_products.
  - intros H d. unfold get_product, bind, get_db, raise. simpl.
    destruct (ObjectId product_id) as [oid|] eqn:E; [|reflexivity].
    apply ObjectId_length in E. contradiction.
Qed.

Lemma get_product_is_read_only_witness :
  String.length "42" <> 24%nat
  /\ get_product "42" (Some sample_db)
     = (Raise (HTTPException 400 "Invalid product id"), Some sample_db).
Proof.
  assert (H : String.length "42" <> 24%nat) by discriminate.
  split; [exact H|].
  destruct (get_product_is_read_only "42" (Some sample_db)) as (_ & _ & H3).
  apply (H3 H).
Defined.
